(** * LPM [buildpkg]: interpreter resolution and the pip wheel builder

    A shallow embedding of [lpm.py]: [_resolve_python_executable] and
    [build_python_package_from_pip], together with the part of the Python
    runtime and of the operating system they call into.

    Conventions of the model:
    - paths and arguments are [string]s; POSIX flavour ([posixpath],
      [PurePosixPath]);
    - the file system is a finite tree of regular files and directories,
      without symbolic links and without permissions other than the execute
      bit of a regular file; its state changes only through the calls made
      by the program and through the child process;
    - the child process started by [subprocess.run] is an oracle carried by
      the world: the model fixes nothing about what it does;
    - the system calls have the errors of the tree only ([ENOENT],
      [ENOTDIR], [EEXIST]): a path with a NUL byte, a name over [NAME_MAX]
      or a path over [PATH_MAX], which the real calls refuse, the depth
      that Python allows to a recursion and limits of space are outside the
      model, and a theorem that promises that [mkdir] makes the directories
      takes a destination within these limits as a hypothesis;
    - [repr] is that of Python on ASCII text; a theorem that states the
      [repr] of a string takes the string to be ASCII. *)

From Stdlib Require Import ZArith Ascii String List Bool Lia.
From stdpp Require Import base option list strings gmap fin_maps.

Local Open Scope string_scope.
Local Open Scope Z_scope.

(** ** Python strings *)

Module PyStr.

(** [s.split(sep)] for a one-character separator. *)
Fixpoint split (sep : ascii) (s : string) : list string :=
  match s with
  | EmptyString => [EmptyString]
  | String c s' =>
      if Ascii.eqb c sep then EmptyString :: split sep s'
      else match split sep s' with
           | [] => [String c EmptyString]
           | h :: t => String c h :: t
           end
  end.

(** [sep.join(l)]. *)
Fixpoint join (sep : string) (l : list string) : string :=
  match l with
  | [] => EmptyString
  | [x] => x
  | x :: rest => x +:+ sep +:+ join sep rest
  end.

(** [s.rfind(c)], scanning from index [i] with [acc] the last hit so far. *)
Fixpoint rfind_from (sep : ascii) (s : string) (i acc : Z) : Z :=
  match s with
  | EmptyString => acc
  | String c s' => rfind_from sep s' (i + 1) (if Ascii.eqb c sep then i else acc)
  end.

Definition rfind (sep : ascii) (s : string) : Z := rfind_from sep s 0 (-1).

(** [s[n:]] for [0 <= n]. *)
Fixpoint drop (n : nat) (s : string) : string :=
  match n, s with
  | O, _ => s
  | S n', String _ s' => drop n' s'
  | S _, EmptyString => EmptyString
  end.

(** [s[:n]] for [0 <= n]. *)
Fixpoint take (n : nat) (s : string) : string :=
  match n, s with
  | S n', String c s' => String c (take n' s')
  | _, _ => EmptyString
  end.

(** [s.startswith(pre)]. *)
Fixpoint startswith (s pre : string) {struct pre} : bool :=
  match pre, s with
  | EmptyString, _ => true
  | String a pre', String b s' => Ascii.eqb b a && startswith s' pre'
  | String _ _, EmptyString => false
  end.

Fixpoint endswith_char (s : string) (c : ascii) : bool :=
  match s with
  | EmptyString => false
  | String a EmptyString => Ascii.eqb a c
  | String _ s' => endswith_char s' c
  end.

(** Truth value of a [str]: non-empty. *)
Definition truthy (s : string) : bool :=
  match s with EmptyString => false | String _ _ => true end.

(** Truth value of a [str | None]. *)
Definition truthy_opt (o : option string) : bool :=
  match o with Some s => truthy s | None => false end.

Definition hex_digit (n : nat) : ascii :=
  ascii_of_nat (if Nat.ltb n 10 then 48 + n else 87 + n)%nat.

Definition dquote : ascii := "034"%char.
Definition squote : ascii := "039"%char.
Definition backslash : ascii := "092"%char.

Fixpoint mem_char (c : ascii) (s : string) : bool :=
  match s with
  | EmptyString => false
  | String a s' => Ascii.eqb a c || mem_char c s'
  end.

(** The body of [repr(s)] between its quotes, for the quote character [q]:
    the quote and the backslash are escaped, tab, newline and carriage
    return have their letter, the other control characters are [\xNN];
    every other character (bytes from 128 on stand for printable text)
    is kept. *)
Fixpoint repr_body (q : ascii) (s : string) : string :=
  match s with
  | EmptyString => EmptyString
  | String c s' =>
      let n := nat_of_ascii c in
      (if Ascii.eqb c q || Ascii.eqb c backslash then String backslash (String c EmptyString)
       else if Nat.eqb n 9 then String backslash "t"
       else if Nat.eqb n 10 then String backslash "n"
       else if Nat.eqb n 13 then String backslash "r"
       else if Nat.ltb n 32 || Nat.eqb n 127 then
         String backslash
           (String "x" (String (hex_digit (n / 16)) (String (hex_digit (n mod 16)) EmptyString)))
       else String c EmptyString) +:+ repr_body q s'
  end.

(** [repr(s)]: single quotes, unless [s] has a single quote and no double
    quote. *)
Definition repr (s : string) : string :=
  let q := if mem_char squote s && negb (mem_char dquote s) then dquote else squote in
  String q (repr_body q s +:+ String q EmptyString).

(** [repr(o)] for a [str | None]. *)
Definition repr_opt (o : option string) : string :=
  match o with Some s => repr s | None => "None" end.

(** [a == b] on [str | None]. *)
Definition eq_opt (a b : option string) : bool :=
  match a, b with
  | Some x, Some y => String.eqb x y
  | None, None => true
  | _, _ => false
  end.

End PyStr.

(** ** posixpath *)

Module PosixPath.

Definition sep : ascii := "/"%char.

(** [os.path.basename(p)]: [i = p.rfind('/') + 1; return p[i:]]. *)
Definition basename (p : string) : string :=
  PyStr.drop (Z.to_nat (PyStr.rfind sep p + 1)) p.

(** [os.path.join(a, b)] for one added component. *)
Definition join (a b : string) : string :=
  if PyStr.startswith b "/" then b
  else if negb (PyStr.truthy a) || PyStr.endswith_char a sep then a +:+ b
  else a +:+ "/" +:+ b.

(** Truth value of [os.path.dirname(p)]: [p] has a directory part exactly
    when it has a slash. *)
Definition has_dirname (p : string) : bool := 0 <=? PyStr.rfind sep p.

End PosixPath.

(** ** The operating system: a file tree, and what a child process does *)

Module OS.

Inductive errno := ENOENT | ENOTDIR | EEXIST.

(** A regular file with its execute bit, or a directory. *)
Inductive node := RegFile (executable : bool) | Directory.

(** The place of a node: its component names from the root, innermost
    first.  The root is the empty list and is always a directory. *)
Definition node_at (fs : gmap (list string) node) (l : list string) : option node :=
  match l with
  | [] => Some Directory
  | _ :: _ => fs !! l
  end.

(** One component of a path walk: empty and [.] stay, [..] goes up (the
    root is its own parent), a name goes down. *)
Definition step (l : list string) (c : string) : list string :=
  if String.eqb c "" || String.eqb c "." then l
  else if String.eqb c ".." then tl l
  else c :: l.

(** Path walk: every component is looked up in a directory. *)
Fixpoint walk (fs : gmap (list string) node) (l : list string) (comps : list string)
  : errno + list string :=
  match comps with
  | [] => inr l
  | c :: cs =>
      match node_at fs l with
      | None => inl ENOENT
      | Some (RegFile _) => inl ENOTDIR
      | Some Directory => walk fs (step l c) cs
      end
  end.

(** Where a walk starts: the root for an absolute path, the working
    directory otherwise. *)
Definition start (cwd : list string) (p : string) : list string :=
  if PyStr.startswith p "/" then [] else cwd.

(** [stat(2)]. *)
Definition stat (fs : gmap (list string) node) (cwd : list string) (p : string)
  : errno + node :=
  if negb (PyStr.truthy p) then inl ENOENT
  else match walk fs (start cwd p) (PyStr.split PosixPath.sep p) with
       | inl e => inl e
       | inr l => match node_at fs l with
                  | None => inl ENOENT
                  | Some n => inr n
                  end
       end.

Definition nonempty (c : string) : bool := PyStr.truthy c.

(** [mkdir(2)]: the parent is walked to and must be a directory; the last
    component must be a name that is not there yet. *)
Definition mkdir (fs : gmap (list string) node) (cwd : list string) (p : string)
  : errno + gmap (list string) node :=
  if negb (PyStr.truthy p) then inl ENOENT
  else match rev (List.filter nonempty (PyStr.split PosixPath.sep p)) with
       | [] => inl EEXIST
       | final :: rparents =>
           match walk fs (start cwd p) (rev rparents) with
           | inl e => inl e
           | inr l =>
               match node_at fs l with
               | None => inl ENOENT
               | Some (RegFile _) => inl ENOTDIR
               | Some Directory =>
                   if String.eqb final "." || String.eqb final ".." then inl EEXIST
                   else match node_at fs (final :: l) with
                        | Some _ => inl EEXIST
                        | None => inr (<[final :: l := Directory]> fs)
                        end
               end
           end
       end.

(** How a started child ended, or why it could not be started. *)
Inductive child_result := Exited (status : Z) | ExecFailed (e : errno).

(** One call of [subprocess.run]: the argument vector, the environment
    given for the child ([None]: inherited), and the file tree at the moment
    of the call. *)
Record spawn := Spawn {
  argv : list string;
  child_env : option (gmap string string);
  fs_at_spawn : gmap (list string) node
}.

(** Everything outside the program: the file tree and the working
    directory, [sys.executable] and the truth of [sys.frozen], the [PATH]
    variable ([None]: not set) and the search path used in its place
    ([os.confstr("CS_PATH")] or [os.defpath]), what a child does when it is
    run, and the calls of [subprocess.run] made so far. *)
Record World := mkWorld {
  fs : gmap (list string) node;
  cwd : list string;
  sys_executable : option string;
  sys_frozen : bool;
  environ_PATH : option string;
  defpath : string;
  run_child : list string -> option (gmap string string) ->
              gmap (list string) node -> child_result * gmap (list string) node;
  spawned : list spawn
}.

Definition set_fs (w : World) (fs' : gmap (list string) node) : World :=
  mkWorld fs' (cwd w) (sys_executable w) (sys_frozen w) (environ_PATH w)
          (defpath w) (run_child w) (spawned w).

Definition log_spawn (w : World) (s : spawn) : World :=
  mkWorld (fs w) (cwd w) (sys_executable w) (sys_frozen w) (environ_PATH w)
          (defpath w) (run_child w) (spawned w ++ [s]).

(** [os.path.exists(p)]. *)
Definition path_exists (w : World) (p : string) : bool :=
  match stat (fs w) (cwd w) p with inr _ => true | inl _ => false end.

(** [os.path.isdir(p)]. *)
Definition path_isdir (w : World) (p : string) : bool :=
  match stat (fs w) (cwd w) p with inr Directory => true | _ => false end.

(** [os.access(p, os.F_OK | os.X_OK)]. *)
Definition access_x (w : World) (p : string) : bool :=
  match stat (fs w) (cwd w) p with
  | inr (RegFile x) => x
  | inr Directory => true
  | inl _ => false
  end.

End OS.

(** ** The Python runtime: exceptions, [shutil], [pathlib], [subprocess] *)

Module Py.
Import OS.

(** The exceptions the program can end with.  An [OSError] stands for its
    subclass by [errno]: [FileNotFoundError], [NotADirectoryError],
    [FileExistsError]. *)
Inductive exn :=
| RuntimeError (msg : string)
| OSError (e : errno) (filename : string)
| CalledProcessError (returncode : Z) (cmd : list string).

(** Computations that read and change the world and may raise; what was
    done before an exception stays done. *)
Definition M (A : Type) : Type := World -> (exn + A) * World.

Definition ret {A} (a : A) : M A := fun w => (inr a, w).

Definition raise {A} (e : exn) : M A := fun w => (inl e, w).

Definition bind {A B} (c : M A) (k : A -> M B) : M B :=
  fun w => match c w with
           | (inr a, w') => k a w'
           | (inl e, w') => (inl e, w')
           end.

(** A computation that only reads the world. *)
Definition reading {A} (f : World -> exn + A) : M A := fun w => (f w, w).

(** [shutil._access_check(fn, os.F_OK | os.X_OK)]. *)
Definition _access_check (w : World) (fn : string) : bool :=
  path_exists w fn && access_x w fn && negb (path_isdir w fn).

(** [shutil.which(cmd)].  The directories of [PATH] are tried in order; the
    set [seen] of the source only skips a directory met before, which the
    first visit has already tried. *)
Definition which (w : World) (cmd : string) : option string :=
  if PosixPath.has_dirname cmd then
    if _access_check w cmd then Some cmd else None
  else
    let path := match environ_PATH w with Some p => p | None => defpath w end in
    if negb (PyStr.truthy path) then None
    else List.find (_access_check w)
           (List.map (fun dir => PosixPath.join dir cmd) (PyStr.split ":" path)).

(** A [pathlib.PurePosixPath]: its root and the names after it. *)
Record PurePath := mkPath { root : string; tail : list string }.

(** [posixpath.splitroot(p)]: the root and the rest.  Exactly two leading
    slashes are a root of their own. *)
Definition splitroot (p : string) : string * string :=
  if negb (String.eqb (PyStr.take 1 p) "/") then ("", p)
  else if negb (String.eqb (PyStr.take 1 (PyStr.drop 1 p)) "/")
          || String.eqb (PyStr.take 1 (PyStr.drop 2 p)) "/"
       then ("/", PyStr.drop 1 p)
       else (PyStr.take 2 p, PyStr.drop 2 p).

Definition is_part (x : string) : bool := PyStr.truthy x && negb (String.eqb x ".").

(** [Path(p)]: empty components and [.] are dropped, [..] is kept. *)
Definition Path (p : string) : PurePath :=
  let '(r, rel) := splitroot p in
  mkPath r (List.filter is_part (PyStr.split PosixPath.sep rel)).

(** [str(path)]. *)
Definition str (p : PurePath) : string :=
  let s := root p +:+ PyStr.join "/" (tail p) in
  if PyStr.truthy s then s else ".".

(** [path.is_dir()]. *)
Definition is_dir (w : World) (p : PurePath) : bool := path_isdir w (str p).

(** [path.mkdir(parents=False, exist_ok=True)]. *)
Definition mkdir_here (p : PurePath) : M unit :=
  fun w =>
    match OS.mkdir (fs w) (cwd w) (str p) with
    | inr fs' => (inr tt, set_fs w fs')
    | inl ENOENT => (inl (OSError ENOENT (str p)), w)
    | inl e => if is_dir w p then (inr tt, w) else (inl (OSError e (str p)), w)
    end.

(** [path.mkdir(parents=True, exist_ok=True)] for the path with root [r]
    and names [rev rtail]: the names are held innermost first, so that
    [path.parent] is the path of [tl rtail], and [path.parent == path]
    exactly when there is no name left. *)
Fixpoint mkdir_parents (r : string) (rtail : list string) : M unit :=
  fun w =>
    let self := mkPath r (rev rtail) in
    match OS.mkdir (fs w) (cwd w) (str self) with
    | inr fs' => (inr tt, set_fs w fs')
    | inl ENOENT =>
        match rtail with
        | [] => (inl (OSError ENOENT (str self)), w)
        | _ :: rparent =>
            bind (mkdir_parents r rparent) (fun _ => mkdir_here self) w
        end
    | inl e => if is_dir w self then (inr tt, w) else (inl (OSError e (str self)), w)
    end.

Definition Path_mkdir (p : PurePath) : M unit := mkdir_parents (root p) (rev (tail p)).

(** [subprocess.run(cmd, check=True, env=env)]: the call is recorded, the
    child runs to its end, and a status other than 0 raises. *)
Definition subprocess_run (cmd : list string) (env : option (gmap string string)) : M unit :=
  fun w =>
    let w1 := log_spawn w (Spawn cmd env (fs w)) in
    let '(r, fs') := run_child w cmd env (fs w) in
    let w2 := set_fs w1 fs' in
    match r with
    | ExecFailed e => (inl (OSError e (hd "" cmd)), w2)
    | Exited rc => if rc =? 0 then (inr tt, w2) else (inl (CalledProcessError rc cmd), w2)
    end.

End Py.

Notation "x <-- c ;; k" := (Py.bind c (fun x => k))
  (at level 100, c at next level, right associativity).

(** ** lpm.py *)

Module Lpm.
Import OS Py.

(** The list [candidates] of [_resolve_python_executable]: the running
    interpreter when it is set and exists, then the two PATH lookups. *)
Definition candidates (w : World) : list (option string) :=
  let executable := sys_executable w in
  (if PyStr.truthy_opt executable
      && match executable with Some e => path_exists w e | None => false end
   then [executable] else [])
  ++ [which w "python3"] ++ [which w "python"].

(** The second test of the loop: the candidate is [sys.executable], the
    process is frozen, and the base name does not start with [python]. *)
Definition is_frozen_launcher (w : World) (candidate : string) : bool :=
  PyStr.eq_opt (Some candidate) (sys_executable w)
  && sys_frozen w
  && negb (PyStr.startswith (PosixPath.basename candidate) "python").

(** The loop over the candidates: the first one that passes both tests. *)
Fixpoint first_usable (w : World) (cs : list (option string)) : option string :=
  match cs with
  | [] => None
  | candidate :: rest =>
      match candidate with
      | None => first_usable w rest
      | Some c =>
          if negb (PyStr.truthy c) || negb (path_exists w c) then first_usable w rest
          else if is_frozen_launcher w c then first_usable w rest
          else Some c
      end
  end.

Definition tried_prefix : string :=
  "Unable to determine a Python interpreter; tried the following candidates: ".

(** The search made when no explicit interpreter is given. *)
Definition search (w : World) : exn + string :=
  let cs := candidates w in
  match first_usable w cs with
  | Some c => inr c
  | None =>
      let searched := PyStr.join ", " (List.map PyStr.repr_opt cs) in
      inl (RuntimeError (tried_prefix +:+ searched))
  end.

Definition _resolve_python_executable (w : World) (explicit : option string)
  : exn + string :=
  match explicit with
  | Some e => if PyStr.truthy e then inr e else search w
  | None => search w
  end.

(** The argument vector of the pip call. *)
Definition pip_cmd (interpreter package : string) (output_dir : PurePath)
    (extra_pip_args : option (list string)) : list string :=
  let cmd := [interpreter; "-m"; "pip"; "wheel"; package; "--no-deps"; "-w"; str output_dir] in
  match extra_pip_args with
  | Some ((_ :: _) as extra) => cmd ++ extra
  | _ => cmd
  end.

Definition build_python_package_from_pip (package destination : string)
    (python_executable : option string) (extra_pip_args : option (list string))
    (env : option (gmap string string)) : M string :=
  interpreter <-- reading (fun w => _resolve_python_executable w python_executable) ;;
  let output_dir := Path destination in
  _ <-- Path_mkdir output_dir ;;
  _ <-- subprocess_run (pip_cmd interpreter package output_dir extra_pip_args) env ;;
  ret interpreter.

End Lpm.

(** ** The resolver in the words of its specification *)

Module Spec.
Import OS Py Lpm.

(** The three candidates in their order of priority: the interpreter
    running the tool, [python3] on PATH, [python] on PATH. *)
Definition ordered_candidates (w : World) : list (option string) :=
  [sys_executable w; which w "python3"; which w "python"].

(** A candidate is rejected when it is absent or empty, when it does not
    exist on disk, or when it is the running interpreter of a frozen process
    and its base name does not start with [python]. *)
Definition rejected (w : World) (c : option string) : bool :=
  match c with
  | None => true
  | Some p =>
      negb (PyStr.truthy p)
      || negb (path_exists w p)
      || (PyStr.eq_opt c (sys_executable w) && sys_frozen w
          && negb (PyStr.startswith (PosixPath.basename p) "python"))
  end.

Definition survives (w : World) (c : option string) : bool := negb (rejected w c).

(** The running interpreter is recorded and exists on disk. *)
Definition self_exists (w : World) : bool :=
  match sys_executable w with
  | Some e => path_exists w e
  | None => false
  end.

(** The failure message that names all three candidates. *)
Definition message_naming_all (w : World) : string :=
  tried_prefix +:+ PyStr.join ", " (List.map PyStr.repr_opt (ordered_candidates w)).

(** The first candidate that survives, if any. *)
Definition first_surviving (w : World) : option string :=
  match List.find (survives w) (ordered_candidates w) with
  | Some c => c
  | None => None
  end.

(** How the pip child of a build ended, when the build got as far as
    starting it. *)
Definition tool_result (package destination : string)
    (python_executable : option string) (extra_pip_args : option (list string))
    (env : option (gmap string string)) (w : World) : option child_result :=
  match _resolve_python_executable w python_executable with
  | inl _ => None
  | inr interpreter =>
      match Path_mkdir (Path destination) w with
      | (inl _, _) => None
      | (inr _, w1) =>
          Some (fst (run_child w1
                       (pip_cmd interpreter package (Path destination) extra_pip_args)
                       env (fs w1)))
      end
  end.

End Spec.

(** ** Paths over the file tree *)

Module Tree.
Import OS Py.

(** A name as [Path] keeps it: not empty, not [.], without a slash. *)
Definition is_name (x : string) : bool :=
  is_part x && negb (PyStr.mem_char PosixPath.sep x).

(** The paths [Path] builds: one of the three roots, and names. *)
Definition wf_path (p : PurePath) : Prop :=
  (root p = "" \/ root p = "/" \/ root p = "//")
  /\ Forall (fun x => is_name x = true) (tail p).

(** Where the walk of a path starts. *)
Definition base (cwd : list string) (p : PurePath) : list string :=
  if PyStr.truthy (root p) then [] else cwd.

(** The place a path names: its names followed from its base. *)
Definition place (cwd : list string) (p : PurePath) : list string :=
  fold_left step (tail p) (base cwd p).

(** The path with root [r] and names [rev rtail], then its parents from the
    nearest one up to the root or to [.]: [[path] + list(path.parents)]. *)
Fixpoint lineage (r : string) (rtail : list string) : list PurePath :=
  mkPath r (rev rtail)
  :: match rtail with
     | [] => []
     | _ :: rparent => lineage r rparent
     end.

Definition ancestors (p : PurePath) : list PurePath :=
  lineage (root p) (rev (tail p)).

(** The path is a directory of the tree [t]. *)
Definition is_directory (t : gmap (list string) node) (cwd : list string)
    (p : PurePath) : bool :=
  match stat t cwd (str p) with inr Directory => true | _ => false end.

Definition holds_directory (t : gmap (list string) node) (l : list string) : bool :=
  match node_at t l with Some Directory => true | _ => false end.

Definition holds_file (t : gmap (list string) node) (l : list string) : bool :=
  match node_at t l with Some (RegFile _) => true | _ => false end.

(** A tree in which every node sits in a directory. *)
Definition tree_wf (t : gmap (list string) node) : bool :=
  forallb (fun ln => holds_directory t (tl ln.1)) (map_to_list t).

(** The tree [t'] is [t] grown by directories only: every place holds what
    it held, or was free and holds a directory. *)
Definition grown (t t' : gmap (list string) node) : Prop :=
  forall l, t' !! l = t !! l \/ (t !! l = None /\ t' !! l = Some Directory).

(** Nothing stands in the way of making [p]: the tree is well formed, the
    walk starts in a directory, and no place that [p] or a parent of [p]
    names holds a regular file. *)
Definition clear_way (w : World) (p : PurePath) : bool :=
  tree_wf (fs w)
  && holds_directory (fs w) (base (cwd w) p)
  && forallb (fun q => negb (holds_file (fs w) (place (cwd w) q))) (ancestors p).

(** A destination that the system and the interpreter take as a path
    (Linux, Python's default recursion limit): no NUL byte, the string
    handed to [mkdir] under [PATH_MAX] = 4096 bytes, every name at most
    [NAME_MAX] = 255 bytes, and at most 256 names, [Path.mkdir] calling
    itself once for each missing parent. *)
Definition within_limits (destination : string) : bool :=
  negb (PyStr.mem_char "000"%char destination)
  && (String.length (str (Path destination)) <? 4096)%nat
  && forallb (fun x => (String.length x <=? 255)%nat) (tail (Path destination))
  && (length (tail (Path destination)) <=? 256)%nat.

End Tree.

(** ** Sample worlds *)

Module Sample.
Import OS Py Lpm.

(** [/usr/bin/python3] and the one-file launcher [/opt/lpm/lpm], both
    executable, and a home directory. *)
Definition tree : gmap (list string) node :=
  <[ ["usr"] := Directory ]>
  (<[ ["bin"; "usr"] := Directory ]>
  (<[ ["python3"; "bin"; "usr"] := RegFile true ]>
  (<[ ["opt"] := Directory ]>
  (<[ ["lpm"; "opt"] := Directory ]>
  (<[ ["lpm"; "lpm"; "opt"] := RegFile true ]>
  (<[ ["home"] := Directory ]>
  (<[ ["dev"; "home"] := Directory ]> ∅))))))).

(** A child that changes nothing and ends with status [rc]. *)
Definition child_exits (rc : Z) : list string -> option (gmap string string) ->
    gmap (list string) node -> child_result * gmap (list string) node :=
  fun _ _ t => (Exited rc, t).

(** The tool run from its one-file bundle. *)
Definition frozen_world (rc : Z) : World :=
  mkWorld tree ["dev"; "home"] (Some "/opt/lpm/lpm") true
          (Some "/usr/local/bin:/usr/bin") "/bin:/usr/bin" (child_exits rc) [].

(** The same executable, not frozen. *)
Definition plain_world (rc : Z) : World :=
  mkWorld tree ["dev"; "home"] (Some "/opt/lpm/lpm") false
          (Some "/usr/local/bin:/usr/bin") "/bin:/usr/bin" (child_exits rc) [].

(** An empty disk: the recorded interpreter is gone and PATH finds nothing. *)
Definition bare_world : World :=
  mkWorld ∅ [] (Some "/opt/lpm/bin/python3") false
          (Some "/usr/local/bin:/usr/bin") "/bin:/usr/bin" (child_exits 0) [].

End Sample.

(** ** The [buildpkg] command *)

Module Cli.
Import OS Py Lpm.

(** The [argparse.Namespace] that [parse_args] hands over: the sub-command
    and the four options of [buildpkg]. *)
Record Namespace := mkNamespace {
  command : string;
  python_pip : option string;
  output_dir : string;
  python_executable : option string;
  pip_args : option (list string)
}.

(** How the command line can end other than by returning: an exception of
    the build, [SystemExit] with a message, [SystemExit] with a status. *)
Inductive cli_exn :=
| Raised (e : exn)
| SystemExit_message (msg : string)
| SystemExit_status (code : Z).

(** The process: the world, and the text this process has written to its
    standard output. *)
Record Process := mkProcess { world : World; stdout : string }.

Definition newline : string := String "010"%char EmptyString.

(** [print(line)]. *)
Definition print (line : string) (p : Process) : Process :=
  mkProcess (world p) (stdout p +:+ line +:+ newline).

Definition requires_python_pip : string := "buildpkg currently requires --python-pip".

(** [_buildpkg_command(args)]. *)
Definition _buildpkg_command (args : Namespace) (p : Process)
  : (cli_exn + Z) * Process :=
  match python_pip args with
  | Some (String _ _ as package) =>
      match build_python_package_from_pip package (output_dir args)
              (python_executable args) (pip_args args) None (world p) with
      | (inl e, w') => (inl (Raised e), mkProcess w' (stdout p))
      | (inr interpreter, w') =>
          (inr 0,
           print ("Built " +:+ package +:+ " using interpreter: " +:+ interpreter)
                 (mkProcess w' (stdout p)))
      end
  | _ => (inl (SystemExit_message requires_python_pip), p)
  end.

(** [main(argv)], over the parser that [create_argument_parser] builds:
    [parse_args] is taken as it comes (it returns a namespace, or ends the
    process after writing its usage or help), and [parser.error] ends the
    process with status 2. *)
Definition main
    (parse_args : option (list string) -> Process -> (cli_exn + Namespace) * Process)
    (argv : option (list string)) (p : Process) : (cli_exn + Z) * Process :=
  match parse_args argv p with
  | (inl e, p') => (inl e, p')
  | (inr args, p') =>
      if String.eqb (command args) "buildpkg" then _buildpkg_command args p'
      else (inl (SystemExit_status 2), p')
  end.

End Cli.

(** ** The resolver by priority *)

Module Priority.
Import OS Py Lpm.

(** The running interpreter is one the loop returns: it is set, exists on
    disk and is not the launcher of a frozen process. *)
Definition self_usable (w : World) : bool :=
  match sys_executable w with
  | Some e => path_exists w e && negb (is_frozen_launcher w e)
  | None => false
  end.

(** What PATH gives: [python3] when it is found, else [python]. *)
Definition from_path (w : World) : option string :=
  match which w "python3" with
  | Some p => Some p
  | None => which w "python"
  end.

(** The string is ASCII text: every byte is under 128. *)
Fixpoint ascii_only (s : string) : bool :=
  match s with
  | EmptyString => true
  | String c s' => (nat_of_ascii c <? 128)%nat && ascii_only s'
  end.

End Priority.

(** ** More sample worlds *)

Module Scene.
Import OS Py Lpm.

(** The frozen bundle on a machine whose PATH is empty. *)
Definition frozen_without_path : World :=
  mkWorld Sample.tree ["dev"; "home"] (Some "/opt/lpm/lpm") true
          (Some "") "/bin:/usr/bin" (Sample.child_exits 0) [].

(** A frozen process whose executable is an interpreter all the same. *)
Definition frozen_python : World :=
  mkWorld Sample.tree ["dev"; "home"] (Some "/usr/bin/python3") true
          (Some "") "/bin:/usr/bin" (Sample.child_exits 0) [].

(** A parser that accepts [buildpkg --python-pip PACKAGE] and nothing else. *)
Definition tiny_parser (argv : option (list string)) (p : Cli.Process)
  : (Cli.cli_exn + Cli.Namespace) * Cli.Process :=
  match argv with
  | Some ["buildpkg"; "--python-pip"; pkg] =>
      (inr (Cli.mkNamespace "buildpkg" (Some pkg) "build/python" None None), p)
  | _ => (inl (Cli.SystemExit_status 2), p)
  end.

End Scene.

(** * Properties *)

Import OS Py Lpm.

(** ** Strings and paths *)

Section StringFacts.

Lemma rfind_from_absent sep s i acc :
  PyStr.mem_char sep s = false -> PyStr.rfind_from sep s i acc = acc.
Proof.
  revert i acc. induction s as [|c s IH]; intros i acc H; simpl in *; [done|].
  apply orb_false_iff in H as [Hc Hs]. rewrite Hc. by apply IH.
Qed.

Lemma rfind_from_last sep s t i acc :
  PyStr.mem_char sep t = false ->
  PyStr.rfind_from sep (s +:+ String sep t) i acc = i + Z.of_nat (String.length s).
Proof.
  intros Ht. revert i acc. induction s as [|c s IH]; intros i acc; simpl.
  - rewrite Ascii.eqb_refl. rewrite rfind_from_absent by done. lia.
  - rewrite IH. lia.
Qed.

Lemma drop_app s t : PyStr.drop (String.length s) (s +:+ t) = t.
Proof. induction s; simpl; auto. Qed.

Lemma append_cons a s t : String a s +:+ t = String a (s +:+ t).
Proof. reflexivity. Qed.

Lemma append_nil t : "" +:+ t = t.
Proof. reflexivity. Qed.

Lemma app_snoc s c t : (s +:+ String c "") +:+ t = s +:+ String c t.
Proof.
  induction s as [|a s IH]; [done|].
  by rewrite !append_cons, IH.
Qed.

Lemma length_snoc s c : String.length (s +:+ String c "") = S (String.length s).
Proof.
  induction s as [|a s IH]; [done|].
  rewrite append_cons. simpl. by rewrite IH.
Qed.

Lemma basename_after_slash s t :
  PyStr.mem_char PosixPath.sep t = false ->
  PosixPath.basename (s +:+ String PosixPath.sep t) = t.
Proof.
  intros Ht. unfold PosixPath.basename, PyStr.rfind.
  rewrite rfind_from_last by done.
  replace (Z.to_nat (0 + Z.of_nat (String.length s) + 1))
    with (String.length (s +:+ String PosixPath.sep "")).
  - rewrite <- (app_snoc s PosixPath.sep t). apply drop_app.
  - rewrite length_snoc. lia.
Qed.

Lemma basename_no_slash t :
  PyStr.mem_char PosixPath.sep t = false -> PosixPath.basename t = t.
Proof.
  intros Ht. unfold PosixPath.basename, PyStr.rfind.
  by rewrite rfind_from_absent.
Qed.

Lemma endswith_char_split s c :
  PyStr.endswith_char s c = true -> exists s', s = s' +:+ String c "".
Proof.
  induction s as [|a s IH]; simpl; [done|].
  destruct s as [|b s].
  - intros H. apply Ascii.eqb_eq in H as ->. by exists "".
  - intros H. destruct (IH H) as [s' Hs']. exists (String a s').
    by rewrite append_cons, <- Hs'.
Qed.

Lemma startswith_no_slash t :
  PyStr.mem_char PosixPath.sep t = false -> PyStr.startswith t "/" = false.
Proof.
  destruct t as [|c t]; simpl; [done|]. intros H.
  apply orb_false_iff in H as [Hc _].
  change PosixPath.sep with "/"%char in Hc. by rewrite Hc.
Qed.

(** The base name of [os.path.join(dir, name)] is [name] when [name] has no
    slash. *)
Lemma basename_join dir name :
  PyStr.mem_char PosixPath.sep name = false ->
  PosixPath.basename (PosixPath.join dir name) = name.
Proof.
  intros Hn. unfold PosixPath.join.
  rewrite startswith_no_slash by done.
  destruct (PyStr.truthy dir) eqn:Hd; simpl.
  - destruct (PyStr.endswith_char dir PosixPath.sep) eqn:He.
    + apply endswith_char_split in He as [s' ->].
      rewrite app_snoc. by apply basename_after_slash.
    + change (dir +:+ "/" +:+ name) with (dir +:+ String PosixPath.sep name).
      by apply basename_after_slash.
  - destruct dir; [|done]. rewrite append_nil. by apply basename_no_slash.
Qed.

End StringFacts.

(** ** The resolver *)

Section ResolverFacts.

Variable w : World.

Lemma path_exists_truthy p : path_exists w p = true -> PyStr.truthy p = true.
Proof.
  unfold path_exists, stat. by destruct (PyStr.truthy p).
Qed.

Lemma first_usable_sound cs c :
  first_usable w cs = Some c ->
  In (Some c) cs /\ PyStr.truthy c = true /\ path_exists w c = true
  /\ is_frozen_launcher w c = false.
Proof.
  induction cs as [|[c'|] cs IH]; simpl; [done| |].
  - destruct (PyStr.truthy c') eqn:Ht; simpl.
    + destruct (path_exists w c') eqn:He; simpl.
      * destruct (is_frozen_launcher w c') eqn:Hl.
        -- intros H. destruct (IH H) as (? & ? & ? & ?). auto.
        -- intros [= <-]. auto.
      * intros H. destruct (IH H) as (? & ? & ? & ?). auto.
    + intros H. destruct (IH H) as (? & ? & ? & ?). auto.
  - intros H. destruct (IH H) as (? & ? & ? & ?). auto.
Qed.

Lemma first_usable_head c rest :
  path_exists w c = true -> is_frozen_launcher w c = false ->
  first_usable w (Some c :: rest) = Some c.
Proof.
  intros He Hl. simpl. by rewrite (path_exists_truthy _ He), He, Hl.
Qed.

Lemma first_usable_skip c rest :
  Spec.rejected w c = true -> first_usable w (c :: rest) = first_usable w rest.
Proof.
  destruct c as [p|]; [|done]. unfold Spec.rejected. cbn [first_usable].
  destruct (PyStr.truthy p); cbn [negb orb]; [|done].
  destruct (path_exists w p); cbn [negb orb]; [|done].
  unfold is_frozen_launcher. by intros ->.
Qed.

Lemma search_sound p :
  search w = inr p -> path_exists w p = true /\ is_frozen_launcher w p = false.
Proof.
  unfold search. destruct (first_usable w (candidates w)) eqn:H; [|done].
  intros [= <-]. by destruct (first_usable_sound _ _ H) as (_ & _ & ? & ?).
Qed.

Lemma resolve_without_explicit explicit :
  PyStr.truthy_opt explicit = false ->
  _resolve_python_executable w explicit = search w.
Proof.
  destruct explicit as [e|]; simpl; [|done]. by intros ->.
Qed.

Lemma which_accessible cmd p : which w cmd = Some p -> _access_check w p = true.
Proof.
  unfold which. destruct (PosixPath.has_dirname cmd).
  - destruct (_access_check w cmd) eqn:Ha; [|done]. by intros [= <-].
  - destruct (negb _); [done|]. intros H. by apply find_some in H as [_ ?].
Qed.

Lemma which_exists cmd p : which w cmd = Some p -> path_exists w p = true.
Proof.
  intros H. apply which_accessible in H. unfold _access_check in H.
  by apply andb_true_iff in H as [[? _]%andb_true_iff _].
Qed.

Lemma which_basename cmd p :
  PyStr.mem_char PosixPath.sep cmd = false ->
  which w cmd = Some p -> PosixPath.basename p = cmd.
Proof.
  intros Hc. unfold which, PosixPath.has_dirname, PyStr.rfind.
  rewrite rfind_from_absent by done. simpl.
  destruct (negb _); [done|]. intros H.
  apply find_some in H as [Hin _].
  apply in_map_iff in Hin as (dir & <- & _). by apply basename_join.
Qed.

End ResolverFacts.

Section ResolverOrder.

Variable w : World.

Lemma first_usable_find cs :
  first_usable w cs =
  match List.find (Spec.survives w) cs with Some c => c | None => None end.
Proof.
  induction cs as [|c cs IH]; [done|].
  cbn [List.find]. unfold Spec.survives at 1.
  destruct (Spec.rejected w c) eqn:Hr; cbn [negb].
  - by rewrite first_usable_skip.
  - destruct c as [p|]; [|done]. unfold Spec.rejected in Hr.
    apply orb_false_iff in Hr as [[Ht He]%orb_false_iff Hl].
    apply negb_false_iff in He. by apply first_usable_head.
Qed.

Lemma candidates_find :
  List.find (Spec.survives w) (candidates w) =
  List.find (Spec.survives w) (Spec.ordered_candidates w).
Proof.
  unfold candidates, Spec.ordered_candidates.
  destruct (sys_executable w) as [e|] eqn:Hexe; cbn [PyStr.truthy_opt]; [|done].
  destruct (PyStr.truthy e) eqn:Ht; cbn [andb].
  - destruct (path_exists w e) eqn:He; [done|].
    cbn [app List.find]. unfold Spec.survives at 3, Spec.rejected.
    by rewrite Ht, He.
  - cbn [app List.find]. unfold Spec.survives at 3, Spec.rejected.
    by rewrite Ht.
Qed.

Lemma search_first_surviving :
  first_usable w (candidates w) = Spec.first_surviving w.
Proof.
  unfold Spec.first_surviving. by rewrite first_usable_find, candidates_find.
Qed.

Lemma launcher_is_self c :
  is_frozen_launcher w c = true -> sys_executable w = Some c.
Proof.
  unfold is_frozen_launcher. intros [[H _]%andb_true_iff _]%andb_true_iff.
  destruct (sys_executable w) as [e|]; [|done]. simpl in H.
  by apply String.eqb_eq in H as ->.
Qed.

(** When the running interpreter is the launcher of a frozen process, the
    loop goes on to the PATH candidates. *)
Lemma launcher_falls_through e :
  is_frozen_launcher w e = true ->
  first_usable w (candidates w)
  = first_usable w [which w "python3"; which w "python"].
Proof.
  intros Hl. pose proof (launcher_is_self _ Hl) as Hexe.
  unfold candidates. rewrite Hexe. cbn [PyStr.truthy_opt].
  destruct (PyStr.truthy e && path_exists w e) eqn:Hc; [|done].
  apply andb_true_iff in Hc as [Ht He].
  cbn [app first_usable]. by rewrite Ht, He, Hl.
Qed.

End ResolverOrder.

(** ** Claims about the resolver *)

(** C1, as amended.  When no non-empty explicit interpreter is given, a path
    that resolution returns exists on disk at that time and is not the
    launcher of a frozen process.  (A non-empty explicit path is returned as
    it is, whether it exists or not.) *)
Theorem resolved_path_exists_unless_explicit
    (w : World) (explicit : option string) (p : string) :
  PyStr.truthy_opt explicit = false ->
  _resolve_python_executable w explicit = inr p ->
  path_exists w p = true /\ is_frozen_launcher w p = false.
Proof.
  intros Hx. rewrite resolve_without_explicit by done. apply search_sound.
Qed.

Lemma resolved_path_exists_unless_explicit_witness :
  path_exists (Sample.frozen_world 0) "/usr/bin/python3" = true
  /\ is_frozen_launcher (Sample.frozen_world 0) "/usr/bin/python3" = false.
Proof.
  apply (resolved_path_exists_unless_explicit (Sample.frozen_world 0) None);
    vm_compute; reflexivity.
Defined.

(** C1, as stated, fails: an explicit path that is not on disk is returned. *)
Lemma explicit_path_need_not_exist :
  _resolve_python_executable Sample.bare_world (Some "/no/such/python")
  = inr "/no/such/python"
  /\ path_exists Sample.bare_world "/no/such/python" = false.
Proof. split; vm_compute; reflexivity. Qed.

(** C2.  A non-empty explicit interpreter is returned unchanged in every
    world: the result does not depend on the file tree, on PATH or on the
    running interpreter, so nothing about the path is checked. *)
Theorem explicit_returned_unchanged (w : World) (e : string) :
  PyStr.truthy e = true ->
  _resolve_python_executable w (Some e) = inr e.
Proof. intros H. simpl. by rewrite H. Qed.

Lemma explicit_returned_unchanged_witness :
  _resolve_python_executable Sample.bare_world (Some "/opt/python/bin/python3.12")
  = inr "/opt/python/bin/python3.12".
Proof.
  apply (explicit_returned_unchanged Sample.bare_world "/opt/python/bin/python3.12").
  reflexivity.
Defined.

(** C3, as amended.  When no non-empty explicit path is given, the running
    interpreter does not exist on disk and PATH has neither [python3] nor
    [python], resolution fails with the message that lists the two PATH
    lookups, both as [None]; the missing interpreter is not in the list. *)
Theorem failure_lists_path_lookups (w : World) (explicit : option string) :
  PyStr.truthy_opt explicit = false ->
  Spec.self_exists w = false ->
  which w "python3" = None ->
  which w "python" = None ->
  _resolve_python_executable w explicit
  = inl (RuntimeError
      "Unable to determine a Python interpreter; tried the following candidates: None, None").
Proof.
  intros Hx Hself H3 H2. rewrite resolve_without_explicit by done.
  unfold search, candidates. rewrite H3, H2.
  replace (PyStr.truthy_opt (sys_executable w) && _) with false; [done|].
  unfold Spec.self_exists in Hself. destruct (sys_executable w); [|done].
  by rewrite Hself, andb_false_r.
Qed.

Lemma failure_lists_path_lookups_witness :
  _resolve_python_executable Sample.bare_world None
  = inl (RuntimeError
      "Unable to determine a Python interpreter; tried the following candidates: None, None").
Proof.
  apply (failure_lists_path_lookups Sample.bare_world None); vm_compute; reflexivity.
Defined.

(** C3, as stated, fails: the interpreter that does not exist is left out of
    the message, which names two candidates and not three. *)
Lemma missing_self_not_listed :
  Spec.self_exists Sample.bare_world = false
  /\ which Sample.bare_world "python3" = None
  /\ which Sample.bare_world "python" = None
  /\ Spec.message_naming_all Sample.bare_world
     = "Unable to determine a Python interpreter; tried the following candidates: '/opt/lpm/bin/python3', None, None"
  /\ _resolve_python_executable Sample.bare_world None
     <> inl (RuntimeError (Spec.message_naming_all Sample.bare_world)).
Proof. repeat split; vm_compute; done. Qed.

(** C4.  The launcher test only ever rejects the running interpreter: a
    candidate found on PATH, for [python3] or for [python], passes it and
    passes the whole loop, whatever the frozen flag, the running interpreter
    and the file tree are; and a path the test rejects is the running
    interpreter itself and not that PATH candidate. *)
Theorem launcher_check_spares_path_candidates (w : World) (cmd p : string) :
  cmd = "python3" \/ cmd = "python" ->
  which w cmd = Some p ->
  is_frozen_launcher w p = false
  /\ first_usable w [Some p] = Some p
  /\ (forall c, is_frozen_launcher w c = true -> sys_executable w = Some c /\ c <> p).
Proof.
  intros Hcmd Hw.
  assert (Hl : is_frozen_launcher w p = false).
  { assert (Hb : PosixPath.basename p = cmd).
    { apply (which_basename w); [|done]. by destruct Hcmd as [-> | ->]. }
    unfold is_frozen_launcher. rewrite Hb.
    replace (PyStr.startswith cmd "python") with true
      by (by destruct Hcmd as [-> | ->]).
    apply andb_false_r. }
  split; [done|]. split.
  - apply first_usable_head; [|done]. by apply (which_exists w cmd).
  - intros c Hc. split; [by apply launcher_is_self|].
    intros ->. congruence.
Qed.

Lemma launcher_check_spares_path_candidates_witness :
  is_frozen_launcher (Sample.frozen_world 0) "/usr/bin/python3" = false
  /\ first_usable (Sample.frozen_world 0) [Some "/usr/bin/python3"] = Some "/usr/bin/python3"
  /\ (forall c, is_frozen_launcher (Sample.frozen_world 0) c = true ->
        sys_executable (Sample.frozen_world 0) = Some c /\ c <> "/usr/bin/python3").
Proof.
  apply (launcher_check_spares_path_candidates (Sample.frozen_world 0) "python3").
  - by left.
  - vm_compute; reflexivity.
Defined.

(** C5.  With no non-empty explicit path, resolution returns the first of
    the running interpreter, [python3] on PATH and [python] on PATH, in this
    order, that is present and non-empty, exists on disk and is not rejected
    by the launcher test; when there is none it raises. *)
Theorem resolve_returns_first_surviving (w : World) (explicit : option string) :
  PyStr.truthy_opt explicit = false ->
  match Spec.first_surviving w with
  | Some p => _resolve_python_executable w explicit = inr p
  | None => exists msg, _resolve_python_executable w explicit = inl (RuntimeError msg)
  end.
Proof.
  intros Hx. rewrite resolve_without_explicit by done.
  unfold search. rewrite search_first_surviving.
  destruct (Spec.first_surviving w); eauto.
Qed.

Lemma resolve_returns_first_surviving_witness :
  _resolve_python_executable (Sample.frozen_world 0) None = inr "/usr/bin/python3".
Proof.
  apply (resolve_returns_first_surviving (Sample.frozen_world 0) None).
  reflexivity.
Defined.

(** C6.  In a process that is not frozen, the running interpreter passes the
    launcher test whatever its base name is, and when it exists on disk
    resolution (with no non-empty explicit path) returns it. *)
Theorem self_accepted_when_not_frozen (w : World) (explicit : option string) (p : string) :
  sys_frozen w = false ->
  sys_executable w = Some p ->
  path_exists w p = true ->
  PyStr.truthy_opt explicit = false ->
  is_frozen_launcher w p = false
  /\ _resolve_python_executable w explicit = inr p.
Proof.
  intros Hf Hexe He Hx.
  assert (Hl : is_frozen_launcher w p = false).
  { unfold is_frozen_launcher. by rewrite Hf, andb_false_r. }
  split; [done|].
  rewrite resolve_without_explicit by done.
  unfold search, candidates. rewrite Hexe. cbn [PyStr.truthy_opt].
  rewrite (path_exists_truthy _ _ He), He. cbn [andb app].
  by rewrite first_usable_head.
Qed.

Lemma self_accepted_when_not_frozen_witness :
  is_frozen_launcher (Sample.plain_world 0) "/opt/lpm/lpm" = false
  /\ _resolve_python_executable (Sample.plain_world 0) None = inr "/opt/lpm/lpm".
Proof.
  apply (self_accepted_when_not_frozen (Sample.plain_world 0) None "/opt/lpm/lpm");
    vm_compute; reflexivity.
Defined.

(** ** The wheel builder *)

(** The outcomes of a [mkdir] call inside [Path.mkdir]: made, parent
    missing, or another error with the path a directory or not. *)
Ltac mkdir_outcomes w :=
  destruct (OS.mkdir (fs w) (cwd w) _) as [[]|?];
  try destruct (is_dir w _).

Section BuilderFacts.

Lemma set_fs_same w : set_fs w (fs w) = w.
Proof. by destruct w. Qed.

Lemma mkdir_here_frame p w r w' :
  mkdir_here p w = (r, w') -> w' = set_fs w (fs w').
Proof.
  unfold mkdir_here.
  mkdir_outcomes w; intros [= <- <-]; by rewrite ?set_fs_same.
Qed.

Lemma mkdir_parents_frame r rtail w res w' :
  mkdir_parents r rtail w = (res, w') -> w' = set_fs w (fs w').
Proof.
  revert w res w'. induction rtail as [|x rtail IH]; intros w res w'; simpl.
  - mkdir_outcomes w; intros [= <- <-]; by rewrite ?set_fs_same.
  - mkdir_outcomes w; try (intros [= <- <-]; by rewrite ?set_fs_same).
    unfold bind. destruct (mkdir_parents r rtail w) as [[e|[]] w1] eqn:Hp.
    + intros [= <- <-]. by apply IH in Hp.
    + intros Hh. apply IH in Hp. apply mkdir_here_frame in Hh.
      rewrite Hh, Hp. by destruct w.
Qed.

Lemma Path_mkdir_frame p w res w' :
  Path_mkdir p w = (res, w') -> w' = set_fs w (fs w').
Proof. apply mkdir_parents_frame. Qed.

(** The builder, step by step. *)
Lemma build_unfold package destination python_executable extra_pip_args env w :
  build_python_package_from_pip package destination python_executable
    extra_pip_args env w
  = match _resolve_python_executable w python_executable with
    | inl e => (inl e, w)
    | inr interpreter =>
        match Path_mkdir (Path destination) w with
        | (inl e, w1) => (inl e, w1)
        | (inr _, w1) =>
            match subprocess_run
                    (pip_cmd interpreter package (Path destination) extra_pip_args)
                    env w1 with
            | (inl e, w2) => (inl e, w2)
            | (inr _, w2) => (inr interpreter, w2)
            end
        end
    end.
Proof.
  unfold build_python_package_from_pip, bind, reading, ret.
  destruct (_resolve_python_executable w python_executable); [done|].
  destruct (Path_mkdir (Path destination) w) as [[|] w1]; [done|].
  by destruct (subprocess_run _ env w1) as [[|] w2].
Qed.

Lemma pip_cmd_tokens interpreter package output_dir extra_pip_args :
  pip_cmd interpreter package output_dir extra_pip_args
  = ([interpreter; "-m"; "pip"; "wheel"; package; "--no-deps"; "-w"; str output_dir]
     ++ default [] extra_pip_args)%list.
Proof. by destruct extra_pip_args as [[|]|]. Qed.

Lemma subprocess_run_spawned cmd env w :
  spawned (subprocess_run cmd env w).2 = (spawned w ++ [Spawn cmd env (fs w)])%list.
Proof.
  unfold subprocess_run. destruct (run_child w cmd env (fs w)) as [[rc|e] fs'];
    [destruct (rc =? 0)|]; done.
Qed.

Lemma subprocess_run_result cmd env w :
  (subprocess_run cmd env w).1
  = match (run_child w cmd env (fs w)).1 with
    | Exited rc => if rc =? 0 then inr tt else inl (CalledProcessError rc cmd)
    | ExecFailed e => inl (OSError e (hd "" cmd))
    end.
Proof.
  unfold subprocess_run. destruct (run_child w cmd env (fs w)) as [[rc|e] fs'];
    simpl; [destruct (rc =? 0)|]; done.
Qed.

End BuilderFacts.

Section BuilderErrors.

Lemma resolve_error_kind w explicit e :
  _resolve_python_executable w explicit = inl e -> exists msg, e = RuntimeError msg.
Proof.
  assert (Hs : search w = inl e -> exists msg, e = RuntimeError msg).
  { unfold search. destruct (first_usable w (candidates w)); [done|].
    intros [= <-]. eauto. }
  destruct explicit as [x|]; simpl; [|done].
  by destruct (PyStr.truthy x).
Qed.

Lemma mkdir_here_error_kind p w e w' :
  mkdir_here p w = (inl e, w') -> exists en f, e = OSError en f.
Proof.
  unfold mkdir_here.
  mkdir_outcomes w; intros [= <- <-]; eauto.
Qed.

Lemma mkdir_parents_error_kind r rtail w e w' :
  mkdir_parents r rtail w = (inl e, w') -> exists en f, e = OSError en f.
Proof.
  revert w e w'. induction rtail as [|x rtail IH]; intros w e w'; simpl.
  - mkdir_outcomes w; intros [= <- <-]; eauto.
  - mkdir_outcomes w; try (intros [= <- <-]; eauto).
    unfold bind. destruct (mkdir_parents r rtail w) as [[e1|[]] w1] eqn:Hp.
    + intros [= <- <-]. by apply IH in Hp.
    + apply mkdir_here_error_kind.
Qed.

End BuilderErrors.

(** ** Splitting and joining path strings *)

Section SplitFacts.

Lemma split_no_sep sep s : PyStr.mem_char sep s = false -> PyStr.split sep s = [s].
Proof.
  induction s as [|c s IH]; [done|]. simpl.
  intros [Hc Hs]%orb_false_iff. by rewrite Hc, (IH Hs).
Qed.

Lemma split_cons_sep sep t : PyStr.split sep (String sep t) = "" :: PyStr.split sep t.
Proof. simpl. by rewrite Ascii.eqb_refl. Qed.

Lemma split_app_sep sep s t :
  PyStr.mem_char sep s = false ->
  PyStr.split sep (s +:+ String sep t) = s :: PyStr.split sep t.
Proof.
  induction s as [|c s IH]; intros Hs.
  - rewrite append_nil. apply split_cons_sep.
  - simpl in Hs. apply orb_false_iff in Hs as [Hc Hs].
    rewrite append_cons. simpl. by rewrite Hc, (IH Hs).
Qed.

Lemma split_parts_no_sep sep s x :
  In x (PyStr.split sep s) -> PyStr.mem_char sep x = false.
Proof.
  revert x. induction s as [|c s IH]; intros x; simpl.
  - by intros [<-|[]].
  - destruct (Ascii.eqb c sep) eqn:Hc.
    + intros [<-|Hin]; [done|]. by apply IH.
    + destruct (PyStr.split sep s) as [|h t] eqn:Hsp.
      * intros [<-|[]]. simpl. by rewrite Hc.
      * intros [<-|Hin].
        -- simpl. rewrite Hc. apply IH. by left.
        -- apply IH. by right.
Qed.

Lemma split_join parts :
  parts <> [] ->
  Forall (fun x => PyStr.mem_char PosixPath.sep x = false) parts ->
  PyStr.split PosixPath.sep (PyStr.join "/" parts) = parts.
Proof.
  induction parts as [|x parts IH]; [done|]. intros _ Hall.
  apply Forall_cons in Hall as [Hx Hall].
  destruct parts as [|y parts].
  - simpl. by apply split_no_sep.
  - change (PyStr.join "/" (x :: y :: parts))
      with (x +:+ String PosixPath.sep (PyStr.join "/" (y :: parts))).
    rewrite split_app_sep by done. by rewrite IH.
Qed.

End SplitFacts.

(** ** The shape of [pathlib] paths *)

Section PathShape.

Lemma is_name_spec x :
  Tree.is_name x = true ->
  PyStr.truthy x = true /\ x <> "." /\ PyStr.mem_char PosixPath.sep x = false.
Proof.
  unfold Tree.is_name, is_part.
  intros [[Ht Hd%negb_true_iff]%andb_true_iff Hs%negb_true_iff]%andb_true_iff.
  repeat split; [done| |done]. intros ->. done.
Qed.

Lemma take1_slash p :
  String.eqb (PyStr.take 1 p) "/" = true -> exists p', p = String "/" p'.
Proof.
  destruct p as [|a p]; cbn [PyStr.take]; [done|].
  intros [= ->]%String.eqb_eq. eauto.
Qed.

Lemma splitroot_root p :
  (splitroot p).1 = "" \/ (splitroot p).1 = "/" \/ (splitroot p).1 = "//".
Proof.
  unfold splitroot.
  destruct (String.eqb (PyStr.take 1 p) "/") eqn:H1; cbn [negb]; [|by left].
  apply take1_slash in H1 as [p1 ->]. cbn [PyStr.drop].
  destruct (String.eqb (PyStr.take 1 p1) "/") eqn:H2; cbn [negb orb];
    [|by right; left].
  apply take1_slash in H2 as [p2 ->].
  destruct (String.eqb _ "/"); [by right; left|by right; right].
Qed.

Lemma Path_wf destination : Tree.wf_path (Path destination).
Proof.
  unfold Path. pose proof (splitroot_root destination) as Hr.
  destruct (splitroot destination) as [r rel]. split; [done|]. simpl.
  apply List.Forall_forall. intros x [Hin Hp]%filter_In.
  unfold Tree.is_name. rewrite Hp. simpl.
  apply negb_true_iff. by eapply split_parts_no_sep.
Qed.

Lemma join_names_truthy x parts :
  Tree.is_name x = true -> PyStr.truthy (PyStr.join "/" (x :: parts)) = true.
Proof.
  intros (Ht & _ & _)%is_name_spec. destruct x as [|c x]; [done|].
  by destruct parts.
Qed.

Lemma join_names_start x parts :
  Tree.is_name x = true -> PyStr.startswith (PyStr.join "/" (x :: parts)) "/" = false.
Proof.
  intros (Ht & _ & Hs)%is_name_spec. destruct x as [|c x]; [done|].
  simpl in Hs. apply orb_false_iff in Hs as [Hc _].
  change PosixPath.sep with "/"%char in Hc.
  destruct parts; simpl; by rewrite Hc.
Qed.

Lemma names_no_sep parts :
  Forall (fun x => Tree.is_name x = true) parts ->
  Forall (fun x => PyStr.mem_char PosixPath.sep x = false) parts.
Proof.
  intros H. eapply Forall_impl; [exact H|].
  by intros x (_ & _ & ?)%is_name_spec.
Qed.

(** The components of [str p] for a path with names. *)
Lemma str_split_names r x parts :
  (r = "" \/ r = "/" \/ r = "//") ->
  Forall (fun x => Tree.is_name x = true) (x :: parts) ->
  PyStr.split PosixPath.sep (str (mkPath r (x :: parts)))
  = (match r with "" => [] | "/" => [""] | _ => [""; ""] end ++ x :: parts)%list
  /\ forall cwd, start cwd (str (mkPath r (x :: parts))) = Tree.base cwd (mkPath r (x :: parts)).
Proof.
  intros Hr Hall. pose proof (names_no_sep _ Hall) as Hns.
  apply Forall_cons in Hall as [Hx Hall].
  assert (Hsj := split_join (x :: parts) ltac:(done) Hns).
  unfold str, Tree.base, start. cbn [root tail].
  destruct Hr as [->|[->| ->]].
  - rewrite append_nil, (join_names_truthy _ _ Hx), (join_names_start _ _ Hx).
    by rewrite Hsj.
  - change ("/" +:+ ?s) with (String PosixPath.sep s). cbn [PyStr.truthy].
    by rewrite split_cons_sep, Hsj.
  - change ("//" +:+ ?s) with (String PosixPath.sep (String PosixPath.sep s)).
    cbn [PyStr.truthy]. by rewrite !split_cons_sep, Hsj.
Qed.

End PathShape.

(** ** Walking the tree *)

Section WalkFacts.

Variable t : gmap (list string) node.

Lemma holds_directory_spec l :
  Tree.holds_directory t l = true <-> node_at t l = Some Directory.
Proof. unfold Tree.holds_directory. by destruct (node_at t l) as [[]|]. Qed.

Lemma walk_app l a b :
  walk t l (a ++ b) =
  match walk t l a with inl e => inl e | inr l' => walk t l' b end.
Proof.
  revert l. induction a as [|c a IH]; intros l; simpl; [done|].
  destruct (node_at t l) as [[]|]; auto.
Qed.

Lemma walk_snoc l a x :
  walk t l (a ++ [x]) =
  match walk t l a with
  | inl e => inl e
  | inr l' => match node_at t l' with
              | None => inl ENOENT
              | Some (RegFile _) => inl ENOTDIR
              | Some Directory => inr (step l' x)
              end
  end.
Proof. rewrite walk_app. by destruct (walk t l a). Qed.

Lemma walk_end l cs l' : walk t l cs = inr l' -> l' = fold_left step cs l.
Proof.
  revert l. induction cs as [|c cs IH]; intros l; simpl; [by intros [= <-]|].
  destruct (node_at t l) as [[]|]; auto; done.
Qed.

Lemma walk_root_empty cs : walk t [] ("" :: cs) = walk t [] cs.
Proof. reflexivity. Qed.

End WalkFacts.

Lemma node_at_weaken (t t' : gmap (list string) node) l n :
  t ⊆ t' -> node_at t l = Some n -> node_at t' l = Some n.
Proof.
  intros Hs. destruct l; [done|]. simpl. intros H. by eapply lookup_weaken.
Qed.

Lemma walk_weaken (t t' : gmap (list string) node) l cs l' :
  t ⊆ t' -> walk t l cs = inr l' -> walk t' l cs = inr l'.
Proof.
  intros Hs. revert l. induction cs as [|c cs IH]; intros l; simpl; [done|].
  destruct (node_at t l) as [[]|] eqn:Hn; try done.
  rewrite (node_at_weaken _ _ _ _ Hs Hn). apply IH.
Qed.

(** ** Paths along their lineage *)

Section LineageFacts.

Variable t : gmap (list string) node.
Variable cwd : list string.
Variable r : string.

Let b : list string := Tree.base cwd (mkPath r []).
Let pl (rt : list string) : list string := Tree.place cwd (mkPath r (rev rt)).

Lemma place_nil : pl [] = b.
Proof. reflexivity. Qed.

Lemma place_cons x rt : pl (x :: rt) = step (pl rt) x.
Proof.
  unfold pl, Tree.place. cbn [tail rev]. by rewrite fold_left_app.
Qed.

Lemma walk_end_place rt l : walk t b (rev rt) = inr l -> l = pl rt.
Proof. apply walk_end. Qed.

Lemma walk_lineage rt :
  Forall (fun q => Tree.holds_directory t (Tree.place cwd q) = true) (Tree.lineage r rt) ->
  walk t b (rev rt) = inr (pl rt).
Proof.
  induction rt as [|x rt IH]; [done|].
  cbn [Tree.lineage rev]. intros [_ Hall]%Forall_cons.
  rewrite walk_snoc, (IH Hall).
  destruct rt as [|y rt'].
  - apply Forall_cons in Hall as [Hd _]. apply holds_directory_spec in Hd.
    fold (pl []) in Hd. rewrite Hd. by rewrite place_cons.
  - cbn [Tree.lineage] in Hall. apply Forall_cons in Hall as [Hd _].
    apply holds_directory_spec in Hd. fold (pl (y :: rt')) in Hd.
    rewrite Hd. by rewrite (place_cons x).
Qed.

Lemma lineage_head rt (P : PurePath -> Prop) :
  Forall P (Tree.lineage r rt) -> P (mkPath r (rev rt)).
Proof. destruct rt; cbn [Tree.lineage]; by intros [? _]%Forall_cons. Qed.

Lemma walked_lineage rt l :
  walk t b (rev rt) = inr l ->
  Tree.holds_directory t l = true ->
  l = pl rt /\
  Forall (fun q => Tree.holds_directory t (Tree.place cwd q) = true) (Tree.lineage r rt).
Proof.
  revert l. induction rt as [|x rt IH]; intros l.
  - intros [= <-] Hd. split; [done|]. by repeat constructor.
  - cbn [rev]. rewrite walk_snoc.
    destruct (walk t b (rev rt)) as [e|l'] eqn:Hw; [done|].
    destruct (node_at t l') as [[]|] eqn:Hn; try done.
    intros [= <-] Hd.
    destruct (IH l' eq_refl) as [-> Hall]; [by apply holds_directory_spec|].
    split; [by rewrite place_cons|].
    cbn [Tree.lineage]. constructor; [|done].
    fold (pl (x :: rt)). by rewrite place_cons.
Qed.

Lemma walk_clear rt e :
  Forall (fun q => Tree.holds_file t (Tree.place cwd q) = false) (Tree.lineage r rt) ->
  walk t b (rev rt) = inl e -> e = ENOENT.
Proof.
  revert e. induction rt as [|x rt IH]; intros e; [done|].
  cbn [Tree.lineage rev]. intros [_ Hall]%Forall_cons.
  rewrite walk_snoc.
  destruct (walk t b (rev rt)) as [e'|l'] eqn:Hw.
  - intros [= <-]. by apply IH.
  - apply walk_end_place in Hw as ->.
    apply lineage_head in Hall. fold (pl rt) in Hall.
    unfold Tree.holds_file in Hall.
    destruct (node_at t (pl rt)) as [[]|]; first [done | by intros [= <-]].
Qed.

End LineageFacts.

(** ** [stat] and [mkdir] on the string of a path *)

Section PathCalls.

Variable t : gmap (list string) node.
Variable cwd : list string.

Lemma str_truthy p : PyStr.truthy (str p) = true.
Proof.
  unfold str. cbv zeta.
  by destruct (PyStr.truthy (root p +:+ PyStr.join "/" (tail p))) eqn:H.
Qed.

Lemma walk_root_comps r cs :
  (r = "" \/ r = "/" \/ r = "//") ->
  walk t (Tree.base cwd (mkPath r cs))
       (match r with "" => [] | "/" => [""] | _ => [""; ""] end ++ cs)
  = walk t (Tree.base cwd (mkPath r cs)) cs.
Proof. by intros [->|[->| ->]]. Qed.

Lemma names_filter_nonempty parts :
  Forall (fun x => Tree.is_name x = true) parts ->
  List.filter nonempty parts = parts.
Proof.
  induction 1 as [|x parts Hx _ IH]; [done|]. simpl.
  apply is_name_spec in Hx as (Ht & _ & _). unfold nonempty at 1.
  by rewrite Ht, IH.
Qed.

Lemma root_comps_filter r parts :
  (r = "" \/ r = "/" \/ r = "//") ->
  Forall (fun x => Tree.is_name x = true) parts ->
  List.filter nonempty
    (match r with "" => [] | "/" => [""] | _ => [""; ""] end ++ parts)
  = parts.
Proof.
  intros Hr Hall. rewrite List.filter_app, (names_filter_nonempty _ Hall).
  by destruct Hr as [->|[->| ->]].
Qed.

(** [stat] of a path with at least one name. *)
Lemma stat_names r x parts :
  Tree.wf_path (mkPath r (x :: parts)) ->
  stat t cwd (str (mkPath r (x :: parts)))
  = match walk t (Tree.base cwd (mkPath r [])) (x :: parts) with
    | inl e => inl e
    | inr l => match node_at t l with None => inl ENOENT | Some n => inr n end
    end.
Proof.
  intros [Hr Hall]. cbn [root tail] in *.
  unfold stat. rewrite str_truthy. cbn [negb].
  destruct (str_split_names r x parts Hr Hall) as [-> ->].
  by rewrite walk_root_comps.
Qed.

(** A path is a directory when the walk along its names ends in one. *)
Lemma is_directory_walk r parts :
  Tree.wf_path (mkPath r parts) ->
  Tree.is_directory t cwd (mkPath r parts) = true <->
  exists l, walk t (Tree.base cwd (mkPath r [])) parts = inr l
            /\ node_at t l = Some Directory.
Proof.
  intros Hwf. unfold Tree.is_directory. destruct parts as [|x parts].
  - destruct Hwf as [Hr _]. cbn [root] in Hr. destruct Hr as [->|[->| ->]].
    + change (stat t cwd (str (mkPath "" [])))
        with (match
                match node_at t cwd with
                | None => inl ENOENT
                | Some (RegFile _) => inl ENOTDIR
                | Some Directory => inr cwd
                end
              with
              | inl e => inl e
              | inr l => match node_at t l with
                         | None => inl ENOENT
                         | Some n => @inr errno node n
                         end
              end).
      change (Tree.base cwd (mkPath "" [])) with cwd. cbn [walk].
      destruct (node_at t cwd) as [[]|] eqn:Hn.
      * split; [done|]. intros (l & [= <-] & Hl). congruence.
      * rewrite Hn. split; [eauto|done].
      * split; [done|]. intros (l & [= <-] & Hl). congruence.
    + split; [eauto|done].
    + split; [eauto|done].
  - rewrite stat_names by done.
    destruct (walk t _ (x :: parts)) as [e|l]; [split; [done|by intros (? & ? & ?)]|].
    destruct (node_at t l) as [[]|] eqn:Hn.
    + split; [done|]. intros (l' & [= <-] & Hl). congruence.
    + split; [eauto|done].
    + split; [done|]. intros (l' & [= <-] & Hl). congruence.
Qed.

(** [mkdir] of a path whose last name is [x]. *)
Lemma mkdir_names r pre x :
  Tree.wf_path (mkPath r (pre ++ [x])) ->
  OS.mkdir t cwd (str (mkPath r (pre ++ [x])))
  = match walk t (Tree.base cwd (mkPath r [])) pre with
    | inl e => inl e
    | inr l =>
        match node_at t l with
        | None => inl ENOENT
        | Some (RegFile _) => inl ENOTDIR
        | Some Directory =>
            if String.eqb x ".." then inl EEXIST
            else match node_at t (x :: l) with
                 | Some _ => inl EEXIST
                 | None => inr (<[x :: l := Directory]> t)
                 end
        end
    end.
Proof.
  intros [Hr Hall]. cbn [root tail] in *.
  unfold OS.mkdir. rewrite str_truthy. cbn [negb].
  destruct (pre ++ [x])%list as [|y parts] eqn:Hp; [by destruct pre|].
  destruct (str_split_names r y parts Hr Hall) as [-> ->].
  rewrite root_comps_filter by done. rewrite <- Hp, rev_app_distr. cbn [rev app].
  rewrite rev_involutive.
  replace (Tree.base cwd (mkPath r (y :: parts))) with (Tree.base cwd (mkPath r [])) by done.
  rewrite <- Hp in Hall. apply Forall_app in Hall as [_ [Hx _]%Forall_cons].
  apply is_name_spec in Hx as (_ & Hdot & _).
  replace (String.eqb x ".") with false; [done|].
  symmetry. by apply String.eqb_neq.
Qed.

(** [mkdir] of a path without names: the root, or [.]. *)
Lemma mkdir_no_names r :
  (r = "" \/ r = "/" \/ r = "//") ->
  OS.mkdir t cwd (str (mkPath r []))
  = if PyStr.truthy r then inl EEXIST
    else match node_at t cwd with
         | None => inl ENOENT
         | Some (RegFile _) => inl ENOTDIR
         | Some Directory => inl EEXIST
         end.
Proof. by intros [->|[->| ->]]. Qed.

End PathCalls.

(** ** Well-formed trees *)

Section TreeFacts.

Lemma tree_wf_spec (t : gmap (list string) node) :
  Tree.tree_wf t = true <->
  forall l n, t !! l = Some n -> Tree.holds_directory t (tl l) = true.
Proof.
  unfold Tree.tree_wf. rewrite forallb_forall. split.
  - intros H l n Hl. apply (H (l, n)).
    apply list_elem_of_In. by apply elem_of_map_to_list.
  - intros H [l n] Hin. apply list_elem_of_In, elem_of_map_to_list in Hin.
    by apply (H l n).
Qed.

Lemma tree_wf_parent (t : gmap (list string) node) l n :
  Tree.tree_wf t = true -> node_at t l = Some n ->
  Tree.holds_directory t (tl l) = true.
Proof.
  intros Hwf. destruct l as [|x l]; [done|]. simpl.
  by apply tree_wf_spec.
Qed.

Lemma holds_directory_insert (t : gmap (list string) node) k l :
  Tree.holds_directory t l = true ->
  Tree.holds_directory (<[k := Directory]> t) l = true.
Proof.
  unfold Tree.holds_directory. destruct l as [|x l]; [done|]. simpl.
  destruct (decide (k = x :: l)) as [->|Hne].
  - by rewrite lookup_insert_eq.
  - by rewrite lookup_insert_ne.
Qed.

Lemma tree_wf_insert (t : gmap (list string) node) x l :
  Tree.tree_wf t = true ->
  Tree.holds_directory t l = true ->
  Tree.tree_wf (<[x :: l := Directory]> t) = true.
Proof.
  intros Hwf Hl. apply tree_wf_spec. intros l' n Hl'.
  apply holds_directory_insert.
  destruct (decide (x :: l = l')) as [<-|Hne]; [done|].
  rewrite lookup_insert_ne in Hl' by done.
  by eapply tree_wf_spec.
Qed.

Lemma holds_directory_weaken (t t' : gmap (list string) node) l :
  t ⊆ t' -> Tree.holds_directory t l = true -> Tree.holds_directory t' l = true.
Proof.
  intros Hs Hd. apply holds_directory_spec in Hd.
  apply holds_directory_spec. by eapply node_at_weaken.
Qed.

Lemma grown_refl t : Tree.grown t t.
Proof. intros l. by left. Qed.

Lemma grown_trans t1 t2 t3 : Tree.grown t1 t2 -> Tree.grown t2 t3 -> Tree.grown t1 t3.
Proof.
  intros H12 H23 l. destruct (H12 l) as [E1|[E1 E1']], (H23 l) as [E2|[E2 E2']].
  - left. congruence.
  - right. split; congruence.
  - right. split; congruence.
  - congruence.
Qed.

Lemma grown_insert t k : t !! k = None -> Tree.grown t (<[k := Directory]> t).
Proof.
  intros Hk l. destruct (decide (k = l)) as [<-|Hne].
  - right. by rewrite lookup_insert_eq.
  - left. by rewrite lookup_insert_ne.
Qed.

Lemma grown_holds_file t t' l :
  Tree.grown t t' -> Tree.holds_file t' l = Tree.holds_file t l.
Proof.
  intros Hg. unfold Tree.holds_file. destruct l as [|x l]; [done|]. simpl.
  destruct (Hg (x :: l)) as [->|[-> ->]]; done.
Qed.

Lemma step_name l x :
  Tree.is_name x = true -> String.eqb x ".." = false -> step l x = x :: l.
Proof.
  intros (Ht & Hdot & _)%is_name_spec Hdd. unfold step.
  replace (String.eqb x "") with false by (by destruct x).
  replace (String.eqb x ".") with false by (symmetry; by apply String.eqb_neq).
  by rewrite Hdd.
Qed.

End TreeFacts.

(** ** Making the directories *)

Section MkdirFacts.

Lemma wf_path_parent r x rt :
  Tree.wf_path (mkPath r (rev (x :: rt))) -> Tree.wf_path (mkPath r (rev rt)).
Proof.
  intros [Hr Hall]. split; [done|]. cbn [tail rev] in *.
  by apply Forall_app in Hall as [? _].
Qed.

Lemma wf_path_last r x rt :
  Tree.wf_path (mkPath r (rev (x :: rt))) -> Tree.is_name x = true.
Proof.
  intros [_ Hall]. cbn [tail rev] in Hall.
  by apply Forall_app in Hall as [_ [? _]%Forall_cons].
Qed.

Lemma set_fs_set_fs w t1 t2 : set_fs (set_fs w t1) t2 = set_fs w t2.
Proof. reflexivity. Qed.

(** [mkdir_parents] at a path with a name: a first [mkdir] that finds the
    parent missing makes the parents and tries again; any other outcome is
    that of [mkdir_here]. *)
Lemma mkdir_parents_cons r x rt w :
  mkdir_parents r (x :: rt) w
  = match OS.mkdir (fs w) (cwd w) (str (mkPath r (rev (x :: rt)))) with
    | inl ENOENT =>
        bind (mkdir_parents r rt) (fun _ => mkdir_here (mkPath r (rev (x :: rt)))) w
    | _ => mkdir_here (mkPath r (rev (x :: rt))) w
    end.
Proof.
  unfold mkdir_here. cbn [mkdir_parents].
  by destruct (OS.mkdir _ _ _) as [[]|].
Qed.

(** With its parents in place and no file where it goes, the directory is
    made, or is there already. *)
Lemma mkdir_here_progress r x rt w :
  Tree.wf_path (mkPath r (rev (x :: rt))) ->
  Tree.tree_wf (fs w) = true ->
  Forall (fun q => Tree.holds_directory (fs w) (Tree.place (cwd w) q) = true)
         (Tree.lineage r rt) ->
  Tree.holds_file (fs w) (Tree.place (cwd w) (mkPath r (rev (x :: rt)))) = false ->
  exists t',
    mkdir_here (mkPath r (rev (x :: rt))) w = (inr tt, set_fs w t')
    /\ fs w ⊆ t' /\ Tree.grown (fs w) t' /\ Tree.tree_wf t' = true
    /\ Tree.holds_directory t' (Tree.place (cwd w) (mkPath r (rev (x :: rt)))) = true.
Proof.
  intros Hwf Htree Hline Hfile.
  pose proof (wf_path_last _ _ _ Hwf) as Hx.
  pose proof (walk_lineage _ _ _ _ Hline) as Hwalk.
  pose proof (lineage_head _ _ _ Hline) as Hparent. cbv beta in Hparent.
  rewrite place_cons in *.
  set (pp := Tree.place (cwd w) (mkPath r (rev rt))) in *.
  assert (Hdir : forall l, Tree.holds_directory (fs w) l = true ->
            walk (fs w) (Tree.base (cwd w) (mkPath r [])) (rev rt ++ [x]) = inr l ->
            is_dir w (mkPath r (rev (x :: rt))) = true).
  { intros l Hl Hw. apply (is_directory_walk (fs w) (cwd w) r (rev (x :: rt)) Hwf).
    exists l. split; [done|]. by apply holds_directory_spec. }
  assert (Hsnoc : walk (fs w) (Tree.base (cwd w) (mkPath r [])) (rev rt ++ [x])
                  = inr (step pp x)).
  { rewrite walk_snoc, Hwalk. apply holds_directory_spec in Hparent.
    by rewrite Hparent. }
  unfold mkdir_here. cbn [rev] in *. rewrite mkdir_names, Hwalk by done.
  apply holds_directory_spec in Hparent as Hnode. rewrite Hnode.
  destruct (String.eqb x "..") eqn:Hdd.
  - apply String.eqb_eq in Hdd as ->.
    assert (Hup : Tree.holds_directory (fs w) (step pp "..") = true)
      by (by eapply tree_wf_parent).
    rewrite (Hdir _ Hup Hsnoc). exists (fs w).
    rewrite set_fs_same. repeat split; try done. apply grown_refl.
  - rewrite (step_name _ _ Hx Hdd) in *.
    destruct (node_at (fs w) (x :: pp)) as [n|] eqn:Hn.
    + assert (Hd : Tree.holds_directory (fs w) (x :: pp) = true).
      { unfold Tree.holds_file in Hfile. unfold Tree.holds_directory.
        rewrite Hn in *. by destruct n. }
      rewrite (Hdir _ Hd Hsnoc). exists (fs w).
      rewrite set_fs_same. repeat split; try done. apply grown_refl.
    + exists (<[x :: pp := Directory]> (fs w)). simpl in Hn.
      repeat split; try done.
      * by apply insert_subseteq.
      * by apply grown_insert.
      * by apply tree_wf_insert.
      * unfold Tree.holds_directory. simpl. by rewrite lookup_insert_eq.
Qed.

(** A first [mkdir] that does not find the parent missing has found every
    parent in place. *)
Lemma parents_in_place r x rt w :
  Tree.wf_path (mkPath r (rev (x :: rt))) ->
  Forall (fun q => Tree.holds_file (fs w) (Tree.place (cwd w) q) = false)
         (Tree.lineage r rt) ->
  OS.mkdir (fs w) (cwd w) (str (mkPath r (rev (x :: rt)))) <> inl ENOENT ->
  Forall (fun q => Tree.holds_directory (fs w) (Tree.place (cwd w) q) = true)
         (Tree.lineage r rt).
Proof.
  intros Hwf Hclear. cbn [rev]. rewrite mkdir_names by done.
  destruct (walk (fs w) _ (rev rt)) as [e|l] eqn:Hw.
  - apply (walk_clear _ _ _ _ _ Hclear) in Hw as ->. done.
  - destruct (node_at (fs w) l) as [[]|] eqn:Hn; [|intros _|done].
    + apply walk_end_place in Hw as ->.
      apply lineage_head in Hclear. unfold Tree.holds_file in Hclear.
      by rewrite Hn in Hclear.
    + eapply walked_lineage; [done|]. by apply holds_directory_spec.
Qed.

(** Progress of [mkdir(parents=True, exist_ok=True)]: in a well-formed tree,
    starting in a directory, with no regular file at any place the path or a
    parent of it names, every directory of the lineage is made or found. *)
Lemma mkdir_parents_progress r rt : forall w,
  Tree.wf_path (mkPath r (rev rt)) ->
  Tree.tree_wf (fs w) = true ->
  Tree.holds_directory (fs w) (Tree.base (cwd w) (mkPath r [])) = true ->
  Forall (fun q => Tree.holds_file (fs w) (Tree.place (cwd w) q) = false)
         (Tree.lineage r rt) ->
  exists t',
    mkdir_parents r rt w = (inr tt, set_fs w t')
    /\ fs w ⊆ t' /\ Tree.grown (fs w) t' /\ Tree.tree_wf t' = true
    /\ Forall (fun q => Tree.holds_directory t' (Tree.place (cwd w) q) = true)
              (Tree.lineage r rt).
Proof.
  induction rt as [|x rt IH]; intros w Hwf Htree Hbase Hclear.
  - exists (fs w). rewrite set_fs_same.
    repeat split; try done; [|apply grown_refl|by repeat constructor].
    destruct Hwf as [Hr _]. cbn [root] in Hr.
    assert (Hd : is_dir w (mkPath r []) = true).
    { apply (is_directory_walk (fs w) (cwd w) r []); [by split|].
      eexists. split; [done|]. by apply holds_directory_spec. }
    cbn [mkdir_parents rev]. rewrite mkdir_no_names by done.
    apply holds_directory_spec in Hbase. unfold Tree.base in Hbase. cbn [root] in Hbase.
    destruct (PyStr.truthy r); [by rewrite Hd|].
    by rewrite Hbase, Hd.
  - cbn [Tree.lineage] in Hclear. apply Forall_cons in Hclear as [Hself Hclear].
    rewrite mkdir_parents_cons.
    assert (Hcases :
      OS.mkdir (fs w) (cwd w) (str (mkPath r (rev (x :: rt)))) = inl ENOENT
      \/ OS.mkdir (fs w) (cwd w) (str (mkPath r (rev (x :: rt)))) <> inl ENOENT)
      by (destruct (OS.mkdir _ _ _) as [[]|]; auto).
    destruct Hcases as [->|Hne].
    + destruct (IH w (wf_path_parent _ _ _ Hwf) Htree Hbase Hclear)
        as (t1 & Hrun & Hsub1 & Hg1 & Hwf1 & Hall1).
      unfold bind. rewrite Hrun.
      destruct (mkdir_here_progress r x rt (set_fs w t1) Hwf Hwf1 Hall1)
        as (t' & Hrun' & Hsub & Hg & Hwf' & Hd).
      { cbn. by rewrite (grown_holds_file _ _ _ Hg1). }
      exists t'. cbn in *. rewrite Hrun'.
      repeat split; try done.
      * by etrans.
      * by eapply grown_trans.
      * constructor; [done|].
        eapply Forall_impl; [exact Hall1|]. intros q. by apply holds_directory_weaken.
    + pose proof (parents_in_place _ _ _ _ Hwf Hclear Hne) as Hall.
      destruct (mkdir_here_progress r x rt w Hwf Htree Hall Hself)
        as (t' & Hrun' & Hsub & Hg & Hwf' & Hd).
      exists t'.
      replace (match OS.mkdir (fs w) (cwd w) (str (mkPath r (rev (x :: rt)))) with
               | inl ENOENT => _
               | _ => mkdir_here (mkPath r (rev (x :: rt))) w
               end) with (mkdir_here (mkPath r (rev (x :: rt))) w)
        by (by destruct (OS.mkdir _ _ _) as [[]|]).
      repeat split; try done.
      constructor; [done|].
      eapply Forall_impl; [exact Hall|]. intros q. by apply holds_directory_weaken.
Qed.

End MkdirFacts.

(** ** What [mkdir] leaves behind *)

Section MkdirResults.

(** [mkdir] of a path that is a directory already answers [EEXIST]. *)
Lemma mkdir_existing t cwd p :
  Tree.wf_path p -> Tree.is_directory t cwd p = true ->
  OS.mkdir t cwd (str p) = inl EEXIST.
Proof.
  destruct p as [r parts]. intros Hwf Hd.
  apply is_directory_walk in Hd as (l & Hw & Hl); [|done].
  destruct parts as [|x parts _] using rev_ind.
  - destruct Hwf as [Hr _]. cbn [root] in Hr. rewrite mkdir_no_names by done.
    injection Hw as <-. unfold Tree.base in Hl. cbn [root] in Hl.
    destruct (PyStr.truthy r); [done|]. by rewrite Hl.
  - rewrite mkdir_names by done. rewrite walk_snoc in Hw.
    destruct (walk t _ parts) as [e|l']; [done|].
    destruct (node_at t l') as [[]|]; try done. injection Hw as <-.
    destruct (String.eqb x "..") eqn:Hdd; [done|].
    destruct Hwf as [_ Hall]. cbn [tail] in Hall.
    apply Forall_app in Hall as [_ [Hx _]%Forall_cons].
    rewrite (step_name _ _ Hx Hdd) in Hl. by rewrite Hl.
Qed.

(** A successful [mkdir] leaves the path a directory and only adds it. *)
Lemma mkdir_creates t cwd p t' :
  Tree.wf_path p -> OS.mkdir t cwd (str p) = inr t' ->
  Tree.is_directory t' cwd p = true /\ Tree.grown t t'.
Proof.
  destruct p as [r parts]. intros Hwf.
  destruct parts as [|x parts _] using rev_ind.
  - destruct Hwf as [Hr _]. cbn [root] in Hr. rewrite mkdir_no_names by done.
    destruct (PyStr.truthy r); [done|]. by destruct (node_at t cwd) as [[]|].
  - rewrite mkdir_names by done.
    destruct (walk t _ parts) as [e|l] eqn:Hw; [done|].
    destruct (node_at t l) as [[]|] eqn:Hl; try done.
    destruct (String.eqb x "..") eqn:Hdd; [done|].
    destruct (node_at t (x :: l)) eqn:Hn; [done|]. intros [= <-]. simpl in Hn.
    split; [|by apply grown_insert].
    apply is_directory_walk; [done|]. exists (x :: l). split.
    + rewrite walk_snoc.
      rewrite (walk_weaken t _ _ _ _ (insert_subseteq _ _ _ Hn) Hw).
      rewrite (node_at_weaken t _ _ _ (insert_subseteq _ _ _ Hn) Hl).
      destruct Hwf as [_ Hall]. cbn [tail] in Hall.
      apply Forall_app in Hall as [_ [Hx _]%Forall_cons].
      by rewrite (step_name _ _ Hx Hdd).
    + simpl. by rewrite lookup_insert_eq.
Qed.

Lemma mkdir_here_safe p w w1 :
  Tree.wf_path p -> mkdir_here p w = (inr tt, w1) ->
  Tree.is_directory (fs w1) (cwd w) p = true /\ Tree.grown (fs w) (fs w1).
Proof.
  intros Hwf. unfold mkdir_here.
  destruct (OS.mkdir (fs w) (cwd w) (str p)) as [e|t'] eqn:Hm.
  - destruct e; try done; destruct (is_dir w p) eqn:Hd; try done;
      intros [= <-]; (split; [done|apply grown_refl]).
  - intros [= <-]. by apply mkdir_creates.
Qed.

Lemma mkdir_parents_safe r rt w w1 :
  Tree.wf_path (mkPath r (rev rt)) ->
  mkdir_parents r rt w = (inr tt, w1) ->
  Tree.is_directory (fs w1) (cwd w) (mkPath r (rev rt)) = true
  /\ Tree.grown (fs w) (fs w1).
Proof.
  revert w w1. induction rt as [|x rt IH]; intros w w1 Hwf.
  - cbn [mkdir_parents].
    destruct (OS.mkdir (fs w) (cwd w) _) as [e|t'] eqn:Hm.
    + destruct e; try done; destruct (is_dir w _) eqn:Hd; try done;
        intros [= <-]; (split; [done|apply grown_refl]).
    + intros [= <-]. by apply mkdir_creates.
  - rewrite mkdir_parents_cons.
    destruct (OS.mkdir (fs w) (cwd w) _) as [[]|t'] eqn:Hm;
      try (by apply mkdir_here_safe).
    unfold bind. destruct (mkdir_parents r rt w) as [[e|[]] w'] eqn:Hp; [done|].
    intros Hh. pose proof (mkdir_parents_frame _ _ _ _ _ Hp) as Hf.
    apply IH in Hp as [_ Hg]; [|by eapply wf_path_parent].
    apply mkdir_here_safe in Hh as [Hd Hg']; [|done].
    rewrite Hf in Hd. split; [done|]. by eapply grown_trans.
Qed.

(** A path that is a directory has directories for all its parents. *)
Lemma is_directory_lineage t cwd r rt :
  Tree.wf_path (mkPath r (rev rt)) ->
  Tree.is_directory t cwd (mkPath r (rev rt)) = true ->
  Forall (fun q => Tree.is_directory t cwd q = true) (Tree.lineage r rt).
Proof.
  induction rt as [|x rt IH]; intros Hwf Hd; [by repeat constructor|].
  cbn [Tree.lineage]. constructor; [done|].
  apply IH; [by eapply wf_path_parent|].
  apply is_directory_walk; [by eapply wf_path_parent|].
  apply is_directory_walk in Hd as (l & Hw & _); [|done].
  cbn [rev] in Hw. rewrite walk_snoc in Hw.
  destruct (walk t _ (rev rt)) as [e|l']; [done|].
  destruct (node_at t l') as [[]|] eqn:Hn; try done. eauto.
Qed.

End MkdirResults.

(** ** Claims about the wheel builder *)

Section DestinationFacts.

Lemma Path_mkdir_eq p :
  Path_mkdir p = mkdir_parents (root p) (rev (tail p)).
Proof. reflexivity. Qed.

Lemma path_rev_rev p : mkPath (root p) (rev (rev (tail p))) = p.
Proof. rewrite rev_involutive. by destruct p. Qed.

Lemma Path_mkdir_safe p w w1 :
  Tree.wf_path p -> Path_mkdir p w = (inr tt, w1) ->
  Forall (fun q => Tree.is_directory (fs w1) (cwd w) q = true) (Tree.ancestors p)
  /\ Tree.grown (fs w) (fs w1).
Proof.
  intros Hwf Hm. rewrite Path_mkdir_eq in Hm. rewrite <- (path_rev_rev p) in Hwf.
  destruct (mkdir_parents_safe _ _ _ _ Hwf Hm) as [Hd Hg]. split; [|done].
  by apply is_directory_lineage.
Qed.

Lemma Path_mkdir_existing p w :
  Tree.wf_path p -> Tree.is_directory (fs w) (cwd w) p = true ->
  Path_mkdir p w = (inr tt, w).
Proof.
  intros Hwf Hd. rewrite Path_mkdir_eq.
  pose proof (mkdir_existing _ _ _ Hwf Hd) as Hm.
  assert (Hdir : is_dir w p = true) by done.
  rewrite <- (path_rev_rev p) in Hm, Hdir.
  destruct (rev (tail p)) as [|x rt].
  - cbn [mkdir_parents]. by rewrite Hm, Hdir.
  - rewrite mkdir_parents_cons, Hm. unfold mkdir_here. by rewrite Hm, Hdir.
Qed.

Lemma Path_mkdir_progress p w :
  Tree.wf_path p -> Tree.clear_way w p = true ->
  exists w1, Path_mkdir p w = (inr tt, w1).
Proof.
  intros Hwf Hc. unfold Tree.clear_way in Hc.
  apply andb_true_iff in Hc as [[Htree Hbase]%andb_true_iff Hall].
  rewrite <- (path_rev_rev p) in Hwf.
  destruct (mkdir_parents_progress (root p) (rev (tail p)) w Hwf Htree Hbase)
    as (t' & Hrun & _); [|by eauto].
  apply List.Forall_forall. intros q Hq.
  rewrite forallb_forall in Hall. by apply negb_true_iff, Hall.
Qed.

Lemma build_spawns interpreter package destination python_executable
    extra_pip_args env w w1 :
  _resolve_python_executable w python_executable = inr interpreter ->
  Path_mkdir (Path destination) w = (inr tt, w1) ->
  spawned (build_python_package_from_pip package destination python_executable
             extra_pip_args env w).2
  = (spawned w ++
     [Spawn (pip_cmd interpreter package (Path destination) extra_pip_args)
            env (fs w1)])%list.
Proof.
  intros Hr Hm. rewrite build_unfold, Hr, Hm.
  set (cmd := pip_cmd _ _ _ _).
  pose proof (subprocess_run_spawned cmd env w1) as Hs.
  apply Path_mkdir_frame in Hm.
  replace (spawned w1) with (spawned w) in Hs by (by rewrite Hm).
  by destruct (subprocess_run cmd env w1) as [[|] w2].
Qed.

End DestinationFacts.

(** C7.  In a build whose interpreter is resolved: pip is started only after
    [mkdir] has raised nothing, and the tree it is started in has the
    destination and every parent of it as directories, the tree having only
    grown by directories; when [mkdir] raises, pip is not started; when the
    destination is a directory already, [mkdir] raises nothing and changes
    nothing; and for a destination within the limits of the system (no NUL
    byte, at most 256 names of at most 255 bytes, under 4096 bytes in all),
    when nothing stands in the way (no regular file at a place the
    destination or a parent names, in a well-formed tree), [mkdir] raises
    nothing, whichever directories are missing. *)
Theorem destination_made_before_pip
    (package destination : string) (python_executable : option string)
    (extra_pip_args : option (list string)) (env : option (gmap string string))
    (w : World) (interpreter : string) :
  _resolve_python_executable w python_executable = inr interpreter ->
  let out := Path destination in
  let run := build_python_package_from_pip package destination python_executable
               extra_pip_args env w in
  (forall w1, Path_mkdir out w = (inr tt, w1) ->
     Forall (fun q => Tree.is_directory (fs w1) (cwd w) q = true) (Tree.ancestors out)
     /\ Tree.grown (fs w) (fs w1)
     /\ spawned run.2
        = (spawned w ++
           [Spawn (pip_cmd interpreter package out extra_pip_args) env (fs w1)])%list)
  /\ (forall e w1, Path_mkdir out w = (inl e, w1) ->
        run = (inl e, w1) /\ spawned w1 = spawned w)
  /\ (Tree.is_directory (fs w) (cwd w) out = true -> Path_mkdir out w = (inr tt, w))
  /\ (Tree.within_limits destination = true ->
      Tree.clear_way w out = true ->
      exists w1, Path_mkdir out w = (inr tt, w1)).
Proof.
  intros Hr out run. pose proof (Path_wf destination) as Hwf.
  split; [|split; [|split]].
  - intros w1 Hm. destruct (Path_mkdir_safe _ _ _ Hwf Hm) as [Hd Hg].
    split; [done|]. split; [done|]. by apply build_spawns.
  - intros e w1 Hm. subst run. rewrite build_unfold, Hr. fold out. rewrite Hm.
    split; [done|]. apply Path_mkdir_frame in Hm. by rewrite Hm.
  - by apply Path_mkdir_existing.
  - intros _. by apply Path_mkdir_progress.
Qed.

Lemma destination_made_before_pip_witness :
  exists w1,
    Path_mkdir (Path "out/dir") (Sample.plain_world 0) = (inr tt, w1)
    /\ Forall (fun q => Tree.is_directory (fs w1) ["dev"; "home"] q = true)
              (Tree.ancestors (Path "out/dir"))
    /\ spawned (build_python_package_from_pip "requests" "out/dir" None None None
                  (Sample.plain_world 0)).2
       = [Spawn ["/opt/lpm/lpm"; "-m"; "pip"; "wheel"; "requests"; "--no-deps";
                 "-w"; "out/dir"] None (fs w1)].
Proof.
  destruct (destination_made_before_pip "requests" "out/dir" None None None
              (Sample.plain_world 0) "/opt/lpm/lpm")
    as (Hrun & _ & _ & Hgo); [vm_compute; reflexivity|].
  destruct Hgo as [w1 Hw1]; [vm_compute; reflexivity|vm_compute; reflexivity|].
  exists w1. destruct (Hrun w1 Hw1) as (Hd & _ & Hs). by repeat split.
Defined.

(** C8.  In a build that reaches the pip call, the argument vector handed to
    [subprocess.run] is the eight fixed tokens (interpreter, [-m], [pip],
    [wheel], the package, [--no-deps], [-w], the output directory) followed
    by the extra arguments as they were given, in their order; and it is the
    one call the build makes. *)
Theorem extra_args_follow_fixed_tokens
    (package destination : string) (python_executable : option string)
    (extra_pip_args : option (list string)) (env : option (gmap string string))
    (w w1 : World) (interpreter : string) :
  _resolve_python_executable w python_executable = inr interpreter ->
  Path_mkdir (Path destination) w = (inr tt, w1) ->
  spawned (build_python_package_from_pip package destination python_executable
             extra_pip_args env w).2
  = (spawned w ++
     [Spawn ([interpreter; "-m"; "pip"; "wheel"; package; "--no-deps"; "-w";
              str (Path destination)] ++ default [] extra_pip_args)
            env (fs w1)])%list.
Proof.
  intros Hr Hm.
  rewrite (build_spawns interpreter package destination python_executable
             extra_pip_args env w w1 Hr Hm).
  by rewrite pip_cmd_tokens.
Qed.

Lemma extra_args_follow_fixed_tokens_witness :
  spawned (build_python_package_from_pip "requests" "/home/dev" None
             (Some ["--no-cache-dir"; "--verbose"; "--no-cache-dir"]) None
             (Sample.plain_world 0)).2
  = ([] ++
     [Spawn (["/opt/lpm/lpm"; "-m"; "pip"; "wheel"; "requests"; "--no-deps"; "-w";
              str (Path "/home/dev")]
             ++ default [] (Some ["--no-cache-dir"; "--verbose"; "--no-cache-dir"]))
            None (fs (Sample.plain_world 0))])%list.
Proof.
  apply (extra_args_follow_fixed_tokens "requests" "/home/dev" None
           (Some ["--no-cache-dir"; "--verbose"; "--no-cache-dir"]) None
           (Sample.plain_world 0) (Sample.plain_world 0) "/opt/lpm/lpm");
    vm_compute; reflexivity.
Defined.

(** C9.  The build ends with [CalledProcessError] exactly when the pip child
    was started and ended with a status other than 0; when the child ends
    with status 0 the build raises nothing and returns the interpreter that
    resolution gave; and the child is started once when the build reaches
    the call and not at all otherwise, so nothing is tried again. *)
Theorem build_error_iff_nonzero_exit
    (package destination : string) (python_executable : option string)
    (extra_pip_args : option (list string)) (env : option (gmap string string))
    (w : World) :
  let run := build_python_package_from_pip package destination python_executable
               extra_pip_args env w in
  let tool := Spec.tool_result package destination python_executable
               extra_pip_args env w in
  (forall rc, (exists cmd, run.1 = inl (CalledProcessError rc cmd))
              <-> (tool = Some (Exited rc) /\ rc <> 0))
  /\ (tool = Some (Exited 0) ->
      exists interpreter,
        _resolve_python_executable w python_executable = inr interpreter
        /\ run.1 = inr interpreter)
  /\ length (spawned run.2)
     = (length (spawned w) + match tool with Some _ => 1 | None => 0 end)%nat.
Proof.
  cbv zeta. rewrite build_unfold. unfold Spec.tool_result.
  destruct (_resolve_python_executable w python_executable) as [e|interpreter] eqn:Hr.
  { apply resolve_error_kind in Hr as [msg ->]. simpl.
    split; [|split; [done|lia]].
    intros rc. split; [by intros [cmd [=]]|by intros [[=] _]]. }
  destruct (Path_mkdir (Path destination) w) as [[e|[]] w1] eqn:Hm.
  { pose proof (Path_mkdir_frame _ _ _ _ Hm) as Hf.
    apply mkdir_parents_error_kind in Hm as (en & f & ->). simpl.
    split; [|split; [done|rewrite Hf; simpl; lia]].
    intros rc. split; [by intros [cmd [=]]|by intros [[=] _]]. }
  apply Path_mkdir_frame in Hm.
  set (cmd := pip_cmd interpreter package (Path destination) extra_pip_args).
  pose proof (subprocess_run_spawned cmd env w1) as Hs.
  pose proof (subprocess_run_result cmd env w1) as Hres.
  replace (spawned w1) with (spawned w) in Hs by (by rewrite Hm).
  destruct (subprocess_run cmd env w1) as [r w2]. simpl in Hs, Hres.
  destruct (run_child w1 cmd env (fs w1)) as [[rc0|en] fs2]; simpl in *.
  - destruct (Z.eqb_spec rc0 0) as [->|Hne]; subst r; simpl.
    + split; [|split].
      * intros rc. split; [by intros [c [=]]|]. by intros [[= <-] ?].
      * eauto.
      * rewrite Hs, length_app. simpl. lia.
    + split; [|split].
      * intros rc. split.
        -- by intros [c [= <- _]].
        -- intros [[= <-] _]. eauto.
      * intros [= ->]. done.
      * rewrite Hs, length_app. simpl. lia.
  - subst r. simpl. split; [|split].
    + intros rc. split; [by intros [c [=]]|by intros [[=] _]].
    + done.
    + rewrite Hs, length_app. simpl. lia.
Qed.

(** C10.  When resolution fails inside the build, the build ends with that
    same error and the world is as it was: the destination directory and
    its parents are not created, and no child is started. *)
Theorem resolution_failure_touches_nothing
    (package destination : string) (python_executable : option string)
    (extra_pip_args : option (list string)) (env : option (gmap string string))
    (w : World) (e : exn) :
  _resolve_python_executable w python_executable = inl e ->
  build_python_package_from_pip package destination python_executable
    extra_pip_args env w = (inl e, w).
Proof. intros Hr. by rewrite build_unfold, Hr. Qed.

Lemma resolution_failure_touches_nothing_witness :
  build_python_package_from_pip "requests" "out/dir" None None None Sample.bare_world
  = (inl (RuntimeError
       "Unable to determine a Python interpreter; tried the following candidates: None, None"),
     Sample.bare_world).
Proof.
  apply (resolution_failure_touches_nothing "requests" "out/dir" None None None
           Sample.bare_world).
  vm_compute; reflexivity.
Defined.

(** ** The model on concrete inputs *)

Example split_components :
  PyStr.split PosixPath.sep "/usr//bin/" = [""; "usr"; ""; "bin"; ""].
Proof. reflexivity. Qed.

Example basename_launcher : PosixPath.basename "/opt/lpm/lpm" = "lpm".
Proof. reflexivity. Qed.

Example repr_path : PyStr.repr "/usr/bin/python3" = "'/usr/bin/python3'".
Proof. reflexivity. Qed.

Example path_normalised :
  str (Path "out//dir/./x/") = "out/dir/x" /\ str (Path "") = "."
  /\ str (Path "//srv") = "//srv" /\ str (Path "///srv/..") = "/srv/..".
Proof. repeat split; reflexivity. Qed.

(** A frozen one-file bundle: the launcher is skipped, PATH gives python3. *)
Example frozen_launcher_skipped :
  candidates (Sample.frozen_world 0) = [Some "/opt/lpm/lpm"; Some "/usr/bin/python3"; None]
  /\ is_frozen_launcher (Sample.frozen_world 0) "/opt/lpm/lpm" = true
  /\ _resolve_python_executable (Sample.frozen_world 0) None = inr "/usr/bin/python3".
Proof. repeat split; vm_compute; reflexivity. Qed.

(** [out/dir] does not exist: both directories are there when pip starts. *)
Example out_dir_made :
  match spawned (build_python_package_from_pip "requests" "out/dir" None None None
                   (Sample.plain_world 0)).2 with
  | [s] => fs_at_spawn s !! ["out"; "dev"; "home"] = Some Directory
           /\ fs_at_spawn s !! ["dir"; "out"; "dev"; "home"] = Some Directory
           /\ fs (Sample.plain_world 0) !! ["out"; "dev"; "home"] = None
  | _ => False
  end.
Proof. vm_compute. repeat split; reflexivity. Qed.

(** A regular file in the way: [mkdir] raises and pip is not started. *)
Example file_in_the_way :
  let run := build_python_package_from_pip "requests" "/usr/bin/python3/wheels"
               None None None (Sample.plain_world 0) in
  run.1 = inl (OSError ENOTDIR "/usr/bin/python3/wheels") /\ spawned run.2 = [].
Proof. split; vm_compute; reflexivity. Qed.

(** Status 1 from pip is a [CalledProcessError]; status 0 returns the
    interpreter. *)
Example pip_status :
  (build_python_package_from_pip "requests" "/home/dev" None None None
     (Sample.plain_world 1)).1
  = inl (CalledProcessError 1
           ["/opt/lpm/lpm"; "-m"; "pip"; "wheel"; "requests"; "--no-deps"; "-w"; "/home/dev"])
  /\ (build_python_package_from_pip "requests" "/home/dev" None None None
        (Sample.plain_world 0)).1
     = inr "/opt/lpm/lpm".
Proof. split; vm_compute; reflexivity. Qed.

(** * Further properties *)

(** ** The resolver *)

Section PriorityFacts.

Variable w : World.

Lemma which_usable cmd p rest :
  cmd = "python3" \/ cmd = "python" ->
  which w cmd = Some p -> first_usable w (Some p :: rest) = Some p.
Proof.
  intros Hcmd Hw. apply first_usable_head; [by apply (which_exists w cmd)|].
  assert (Hb : PosixPath.basename p = cmd).
  { apply (which_basename w); [|done]. by destruct Hcmd as [-> | ->]. }
  unfold is_frozen_launcher. rewrite Hb.
  replace (PyStr.startswith cmd "python") with true
    by (by destruct Hcmd as [-> | ->]).
  apply andb_false_r.
Qed.

Lemma first_usable_lookups :
  first_usable w [which w "python3"; which w "python"] = Priority.from_path w.
Proof.
  unfold Priority.from_path.
  destruct (which w "python3") as [p3|] eqn:H3.
  - apply (which_usable "python3"); auto.
  - destruct (which w "python") as [p|] eqn:H2; [|done].
    change (first_usable w [None; Some p]) with (first_usable w [Some p]).
    apply (which_usable "python"); auto.
Qed.

Lemma first_usable_candidates :
  first_usable w (candidates w)
  = if Priority.self_usable w then sys_executable w else Priority.from_path w.
Proof.
  unfold Priority.self_usable, candidates.
  destruct (sys_executable w) as [e|] eqn:Hexe; cbn [PyStr.truthy_opt].
  - destruct (path_exists w e) eqn:He.
    + rewrite (path_exists_truthy _ _ He). cbn [andb app first_usable].
      rewrite (path_exists_truthy _ _ He), He. cbn [negb orb].
      destruct (is_frozen_launcher w e); cbn [negb]; [|done].
      apply first_usable_lookups.
    + rewrite andb_false_r. cbn [andb app]. apply first_usable_lookups.
  - cbn [andb app]. apply first_usable_lookups.
Qed.

Lemma search_origin p :
  search w = inr p ->
  (Priority.self_usable w = true /\ sys_executable w = Some p)
  \/ which w "python3" = Some p \/ which w "python" = Some p.
Proof.
  unfold search. rewrite first_usable_candidates.
  destruct (Priority.self_usable w).
  - destruct (sys_executable w); [|done]. intros [= <-]. by left.
  - unfold Priority.from_path.
    destruct (which w "python3") as [p3|]; [intros [= <-]; auto|].
    destruct (which w "python") as [p2|]; [intros [= <-]; auto|done].
Qed.

End PriorityFacts.

(** X1.  Resolution never returns the empty string. *)
Theorem resolved_path_not_empty (w : World) (explicit : option string) (p : string) :
  _resolve_python_executable w explicit = inr p -> PyStr.truthy p = true.
Proof.
  assert (Hs : search w = inr p -> PyStr.truthy p = true).
  { unfold search. destruct (first_usable w (candidates w)) eqn:H; [|done].
    intros [= <-]. by destruct (first_usable_sound _ _ _ H) as (_ & ? & _). }
  destruct explicit as [e|]; simpl; [|done].
  destruct (PyStr.truthy e) eqn:He; [|done]. by intros [= <-].
Qed.

Lemma resolved_path_not_empty_witness : PyStr.truthy "/usr/bin/python3" = true.
Proof.
  apply (resolved_path_not_empty (Sample.frozen_world 0) None).
  vm_compute; reflexivity.
Defined.

(** X2.  A resolved path is the explicit one, [sys.executable], or what
    [shutil.which] gave for [python3] or for [python]: nothing else is ever
    returned. *)
Theorem resolved_path_origin (w : World) (explicit : option string) (p : string) :
  _resolve_python_executable w explicit = inr p ->
  explicit = Some p \/ sys_executable w = Some p
  \/ which w "python3" = Some p \/ which w "python" = Some p.
Proof.
  assert (Hs : search w = inr p ->
               sys_executable w = Some p
               \/ which w "python3" = Some p \/ which w "python" = Some p).
  { intros H. destruct (search_origin w p H) as [[_ ?]|[?|?]]; auto. }
  destruct explicit as [e|]; simpl; [|auto].
  destruct (PyStr.truthy e); [|auto]. intros [= <-]. by left.
Qed.

Lemma resolved_path_origin_witness :
  None = Some "/usr/bin/python3"
  \/ sys_executable (Sample.frozen_world 0) = Some "/usr/bin/python3"
  \/ which (Sample.frozen_world 0) "python3" = Some "/usr/bin/python3"
  \/ which (Sample.frozen_world 0) "python" = Some "/usr/bin/python3".
Proof.
  apply (resolved_path_origin (Sample.frozen_world 0) None).
  vm_compute; reflexivity.
Defined.

(** X3.  When the running interpreter is not usable (not set, not on disk,
    or the launcher of a frozen process) and no non-empty explicit path is
    given, PATH decides: a [python3] found there is returned without any
    further test, [python] is looked at only when [python3] is not found,
    and resolution raises when neither is. *)
Theorem path_lookup_priority (w : World) (explicit : option string) :
  PyStr.truthy_opt explicit = false ->
  Priority.self_usable w = false ->
  match which w "python3", which w "python" with
  | Some p3, _ => _resolve_python_executable w explicit = inr p3
  | None, Some p => _resolve_python_executable w explicit = inr p
  | None, None =>
      exists msg, _resolve_python_executable w explicit = inl (RuntimeError msg)
  end.
Proof.
  intros Hx Hself. rewrite resolve_without_explicit by done.
  unfold search. rewrite first_usable_candidates, Hself.
  unfold Priority.from_path.
  destruct (which w "python3"); [done|].
  destruct (which w "python"); eauto.
Qed.

Lemma path_lookup_priority_witness :
  _resolve_python_executable (Sample.frozen_world 0) None = inr "/usr/bin/python3".
Proof.
  apply (path_lookup_priority (Sample.frozen_world 0) None); vm_compute; reflexivity.
Defined.

(** X4.  Resolution raises exactly when there is no non-empty explicit path,
    the running interpreter is not usable, and PATH has neither [python3]
    nor [python]. *)
Theorem resolution_fails_iff (w : World) (explicit : option string) :
  (exists e, _resolve_python_executable w explicit = inl e)
  <-> (PyStr.truthy_opt explicit = false
       /\ Priority.self_usable w = false
       /\ which w "python3" = None /\ which w "python" = None).
Proof.
  assert (Hs : (exists e, search w = inl e)
               <-> (Priority.self_usable w = false
                    /\ which w "python3" = None /\ which w "python" = None)).
  { unfold search. rewrite first_usable_candidates. unfold Priority.from_path.
    destruct (Priority.self_usable w) eqn:Hself.
    - unfold Priority.self_usable in Hself.
      destruct (sys_executable w); [|done].
      split; [by intros [e [=]]|by intros [[=] _]].
    - destruct (which w "python3"); [split; [by intros [e [=]]|by intros (_ & [=] & _)]|].
      destruct (which w "python"); [split; [by intros [e [=]]|by intros (_ & _ & [=])]|].
      split; [done|eauto]. }
  destruct explicit as [x|]; simpl.
  - destruct (PyStr.truthy x).
    + split; [by intros [e [=]]|by intros [[=] _]].
    + rewrite Hs. tauto.
  - rewrite Hs. tauto.
Qed.

(** X5.  Whether the process is frozen or not, a running interpreter that
    exists on disk and whose base name starts with [python] is returned when
    no non-empty explicit path is given; PATH is not consulted for the
    result. *)
Theorem python_named_self_accepted (w : World) (explicit : option string) (p : string) :
  sys_executable w = Some p ->
  path_exists w p = true ->
  PyStr.startswith (PosixPath.basename p) "python" = true ->
  PyStr.truthy_opt explicit = false ->
  _resolve_python_executable w explicit = inr p.
Proof.
  intros Hexe He Hb Hx. rewrite resolve_without_explicit by done.
  unfold search. rewrite first_usable_candidates.
  unfold Priority.self_usable, is_frozen_launcher.
  by rewrite Hexe, He, Hb, andb_false_r.
Qed.

Lemma python_named_self_accepted_witness :
  _resolve_python_executable Scene.frozen_python None = inr "/usr/bin/python3".
Proof.
  apply (python_named_self_accepted Scene.frozen_python None "/usr/bin/python3");
    vm_compute; reflexivity.
Defined.

(** X6.  When the running interpreter exists but is rejected as the launcher
    of a frozen process and PATH has neither [python3] nor [python], the
    message of the error names three candidates: the launcher, in [repr]
    form, and [None] twice.  The launcher path is taken to be ASCII text,
    where the [repr] of the model is that of Python. *)
Theorem launcher_failure_message (w : World) (explicit : option string) (e : string) :
  Priority.ascii_only e = true ->
  PyStr.truthy_opt explicit = false ->
  path_exists w e = true ->
  is_frozen_launcher w e = true ->
  which w "python3" = None ->
  which w "python" = None ->
  _resolve_python_executable w explicit
  = inl (RuntimeError (tried_prefix +:+ PyStr.repr e +:+ ", None, None")).
Proof.
  intros _ Hx He Hl H3 H2. rewrite resolve_without_explicit by done.
  pose proof (launcher_is_self _ _ Hl) as Hexe.
  unfold search. rewrite first_usable_candidates.
  unfold Priority.self_usable, Priority.from_path.
  rewrite Hexe, He, Hl, H3, H2. cbn [negb andb].
  unfold candidates. rewrite Hexe, H3, H2. cbn [PyStr.truthy_opt].
  by rewrite (path_exists_truthy _ _ He), He.
Qed.

Lemma launcher_failure_message_witness :
  _resolve_python_executable Scene.frozen_without_path None
  = inl (RuntimeError (tried_prefix +:+ PyStr.repr "/opt/lpm/lpm" +:+ ", None, None")).
Proof.
  apply (launcher_failure_message Scene.frozen_without_path None "/opt/lpm/lpm");
    vm_compute; reflexivity.
Defined.

(** X7.  With no non-empty explicit path, a resolved path other than
    [sys.executable] is an executable regular file; only the running
    interpreter is taken on its mere existence. *)
Theorem path_result_is_executable_file (w : World) (explicit : option string) (p : string) :
  PyStr.truthy_opt explicit = false ->
  _resolve_python_executable w explicit = inr p ->
  sys_executable w <> Some p ->
  stat (fs w) (cwd w) p = inr (RegFile true).
Proof.
  intros Hx Hr Hne. rewrite resolve_without_explicit in Hr by done.
  assert (Ha : _access_check w p = true).
  { destruct (search_origin w p Hr) as [[_ ?]|[Hw|Hw]]; [done| |];
      by apply which_accessible in Hw. }
  unfold _access_check, path_exists, access_x, path_isdir in Ha.
  destruct (stat (fs w) (cwd w) p) as [e|[[]|]]; done.
Qed.

Lemma path_result_is_executable_file_witness :
  stat (fs (Sample.frozen_world 0)) (cwd (Sample.frozen_world 0)) "/usr/bin/python3"
  = inr (RegFile true).
Proof.
  apply (path_result_is_executable_file (Sample.frozen_world 0) None);
    vm_compute; [reflexivity|reflexivity|discriminate].
Defined.

(** ** The wheel builder, further *)

Section GrowthFacts.

Lemma mkdir_here_grows p w r w1 :
  Tree.wf_path p -> mkdir_here p w = (r, w1) -> Tree.grown (fs w) (fs w1).
Proof.
  intros Hwf. unfold mkdir_here.
  destruct (OS.mkdir (fs w) (cwd w) (str p)) as [e|t'] eqn:Hm.
  - destruct e; try destruct (is_dir w p); intros [= <- <-]; apply grown_refl.
  - intros [= <- <-]. by apply (mkdir_creates _ _ _ _ Hwf Hm).
Qed.

Lemma mkdir_parents_grows r rt w res w1 :
  Tree.wf_path (mkPath r (rev rt)) ->
  mkdir_parents r rt w = (res, w1) -> Tree.grown (fs w) (fs w1).
Proof.
  revert w res w1. induction rt as [|x rt IH]; intros w res w1 Hwf.
  - cbn [mkdir_parents].
    destruct (OS.mkdir (fs w) (cwd w) _) as [e|t'] eqn:Hm.
    + destruct e; try destruct (is_dir w _); intros [= <- <-]; apply grown_refl.
    + intros [= <- <-]. by apply (mkdir_creates _ _ _ _ Hwf Hm).
  - rewrite mkdir_parents_cons.
    destruct (OS.mkdir (fs w) (cwd w) _) as [[]|t'] eqn:Hm;
      try (by apply mkdir_here_grows).
    unfold bind. destruct (mkdir_parents r rt w) as [[e|[]] w'] eqn:Hp.
    + intros [= <- <-]. eapply IH; [by eapply wf_path_parent|done].
    + intros Hh. eapply grown_trans.
      * eapply IH; [by eapply wf_path_parent|done].
      * by eapply mkdir_here_grows.
Qed.

Lemma Path_mkdir_grows p w res w1 :
  Tree.wf_path p -> Path_mkdir p w = (res, w1) -> Tree.grown (fs w) (fs w1).
Proof.
  intros Hwf. rewrite <- (path_rev_rev p) in Hwf. by apply mkdir_parents_grows.
Qed.

End GrowthFacts.

(** X8.  Whatever the outcome, the build removes nothing and overwrites
    nothing before pip runs: the tree in which pip is started, or the tree
    the build ends with when pip is not started, holds at every place what
    was there before, or a new directory where nothing was. *)
Theorem build_only_adds_directories
    (package destination : string) (python_executable : option string)
    (extra_pip_args : option (list string)) (env : option (gmap string string))
    (w : World) :
  let run := build_python_package_from_pip package destination python_executable
               extra_pip_args env w in
  (spawned run.2 = spawned w /\ Tree.grown (fs w) (fs run.2))
  \/ (exists s, spawned run.2 = (spawned w ++ [s])%list
                /\ Tree.grown (fs w) (fs_at_spawn s)).
Proof.
  cbv zeta. rewrite build_unfold.
  destruct (_resolve_python_executable w python_executable) as [e|interpreter] eqn:Hr.
  { left. split; [done|apply grown_refl]. }
  destruct (Path_mkdir (Path destination) w) as [[e|[]] w1] eqn:Hm.
  - left. pose proof (Path_mkdir_frame _ _ _ _ Hm) as Hf.
    split; [by rewrite Hf|]. by apply (Path_mkdir_grows _ _ _ _ (Path_wf destination) Hm).
  - right. eexists. split.
    + rewrite <- (build_spawns interpreter package destination python_executable
                   extra_pip_args env w w1 Hr Hm).
      by rewrite build_unfold, Hr, Hm.
    + by apply (Path_mkdir_grows _ _ _ _ (Path_wf destination) Hm).
Qed.

(** X9.  [exist_ok] forgives a directory only: when the destination is a
    regular file, the build raises [FileExistsError] for the destination,
    the tree is as it was and pip is not started. *)
Theorem destination_is_a_file
    (package destination : string) (python_executable : option string)
    (extra_pip_args : option (list string)) (env : option (gmap string string))
    (w : World) (interpreter : string) (x : bool) :
  _resolve_python_executable w python_executable = inr interpreter ->
  stat (fs w) (cwd w) (str (Path destination)) = inr (RegFile x) ->
  build_python_package_from_pip package destination python_executable
    extra_pip_args env w
  = (inl (OSError EEXIST (str (Path destination))), w).
Proof.
  intros Hr Hst. rewrite build_unfold, Hr.
  pose proof (Path_wf destination) as Hwf.
  set (p := Path destination) in *.
  assert (Hd : is_dir w p = false).
  { unfold is_dir, path_isdir. by rewrite Hst. }
  assert (Hm : OS.mkdir (fs w) (cwd w) (str p) = inl EEXIST).
  { destruct p as [r parts]. destruct parts as [|y parts _] using rev_ind.
    - exfalso. destruct Hwf as [Hroot _]. cbn [root] in Hroot.
      destruct Hroot as [->|[->| ->]]; revert Hst.
      + change (stat (fs w) (cwd w) (str (mkPath "" [])))
          with (match
                  match node_at (fs w) (cwd w) with
                  | None => inl ENOENT
                  | Some (RegFile _) => inl ENOTDIR
                  | Some Directory => inr (cwd w)
                  end
                with
                | inl e => inl e
                | inr l => match node_at (fs w) l with
                           | None => inl ENOENT
                           | Some n => @inr errno node n
                           end
                end).
        destruct (node_at (fs w) (cwd w)) as [[]|] eqn:Hn; try done.
        by rewrite Hn.
      + done.
      + done.
    - rewrite mkdir_names by done.
      destruct (parts ++ [y])%list as [|z zs] eqn:Hp; [by destruct parts|].
      rewrite stat_names in Hst by done. rewrite <- Hp, walk_snoc in Hst.
      destruct (walk (fs w) _ parts) as [e|l]; [done|].
      destruct (node_at (fs w) l) as [[]|]; try done.
      destruct (String.eqb y "..") eqn:Hdd; [done|].
      destruct Hwf as [_ Hall]. cbn [tail] in Hall. rewrite <- Hp in Hall.
      apply Forall_app in Hall as [_ [Hy _]%Forall_cons].
      rewrite (step_name _ _ Hy Hdd) in Hst.
      by destruct (node_at (fs w) (y :: l)). }
  rewrite Path_mkdir_eq. rewrite <- (path_rev_rev p) in Hm, Hd.
  rewrite <- (path_rev_rev p) at 3.
  destruct (rev (tail p)) as [|y rt].
  - cbn [mkdir_parents]. by rewrite Hm, Hd.
  - rewrite mkdir_parents_cons, Hm. unfold mkdir_here. by rewrite Hm, Hd.
Qed.

Lemma destination_is_a_file_witness :
  build_python_package_from_pip "requests" "/usr/bin/python3" None None None
    (Sample.plain_world 0)
  = (inl (OSError EEXIST (str (Path "/usr/bin/python3"))), Sample.plain_world 0).
Proof.
  apply (destination_is_a_file "requests" "/usr/bin/python3" None None None
           (Sample.plain_world 0) "/opt/lpm/lpm" true); vm_compute; reflexivity.
Defined.

(** X10.  When the build returns, it returns what resolution gave, pip was
    started once with that interpreter as its first argument, and pip ended
    with status 0. *)
Theorem build_returns_after_pip_succeeded
    (package destination : string) (python_executable : option string)
    (extra_pip_args : option (list string)) (env : option (gmap string string))
    (w w' : World) (interpreter : string) :
  build_python_package_from_pip package destination python_executable
    extra_pip_args env w = (inr interpreter, w') ->
  _resolve_python_executable w python_executable = inr interpreter
  /\ Spec.tool_result package destination python_executable extra_pip_args env w
     = Some (Exited 0)
  /\ exists s, spawned w' = (spawned w ++ [s])%list
               /\ hd_error (argv s) = Some interpreter
               /\ child_env s = env.
Proof.
  rewrite build_unfold. unfold Spec.tool_result.
  destruct (_resolve_python_executable w python_executable) as [e|i] eqn:Hr; [done|].
  destruct (Path_mkdir (Path destination) w) as [[e|[]] w1] eqn:Hm; [done|].
  set (cmd := pip_cmd i package (Path destination) extra_pip_args).
  pose proof (subprocess_run_spawned cmd env w1) as Hs.
  pose proof (subprocess_run_result cmd env w1) as Hres.
  pose proof (Path_mkdir_frame _ _ _ _ Hm) as Hf.
  replace (spawned w1) with (spawned w) in Hs by (by rewrite Hf).
  destruct (subprocess_run cmd env w1) as [[e|[]] w2]; [done|].
  intros [= <- <-]. split; [done|]. simpl in Hs, Hres. split.
  - destruct (run_child w1 cmd env (fs w1)) as [[rc|en] t2]; simpl in *; [|done].
    destruct (Z.eqb_spec rc 0) as [->|]; done.
  - eexists. split; [exact Hs|]. split; [|done].
    subst cmd. by rewrite pip_cmd_tokens.
Qed.

Lemma build_returns_after_pip_succeeded_witness :
  _resolve_python_executable (Sample.plain_world 0) None = inr "/opt/lpm/lpm"
  /\ Spec.tool_result "requests" "/home/dev" None None None (Sample.plain_world 0)
     = Some (Exited 0)
  /\ exists s, spawned
                 (build_python_package_from_pip "requests" "/home/dev" None None None
                    (Sample.plain_world 0)).2
               = ([] ++ [s])%list
               /\ hd_error (argv s) = Some "/opt/lpm/lpm"
               /\ child_env s = None.
Proof.
  apply (build_returns_after_pip_succeeded "requests" "/home/dev" None None None
           (Sample.plain_world 0)).
  vm_compute; reflexivity.
Defined.

(** X11.  Making the directories twice is making them once: after a
    [Path.mkdir(parents=True, exist_ok=True)] that raised nothing, the same
    call raises nothing and changes nothing. *)
Theorem mkdir_is_idempotent (destination : string) (w w1 : World) :
  Path_mkdir (Path destination) w = (inr tt, w1) ->
  Path_mkdir (Path destination) w1 = (inr tt, w1).
Proof.
  intros Hm. pose proof (Path_wf destination) as Hwf.
  pose proof (Path_mkdir_frame _ _ _ _ Hm) as Hf.
  destruct (Path_mkdir_safe _ _ _ Hwf Hm) as [Hall _].
  apply Path_mkdir_existing; [done|].
  unfold Tree.ancestors in Hall. apply lineage_head in Hall. cbv beta in Hall.
  rewrite path_rev_rev in Hall. by rewrite Hf.
Qed.

Lemma mkdir_is_idempotent_witness :
  exists w1, Path_mkdir (Path "out/dir") (Sample.plain_world 0) = (inr tt, w1)
             /\ Path_mkdir (Path "out/dir") w1 = (inr tt, w1).
Proof.
  eexists. split; [vm_compute; reflexivity|].
  apply (mkdir_is_idempotent "out/dir" (Sample.plain_world 0)).
  vm_compute; reflexivity.
Defined.

(** ** The output directory as pip gets it *)

Section NormalForm.

Lemma splitroot_names j :
  PyStr.startswith j "/" = false ->
  splitroot j = ("", j)
  /\ splitroot (String "/" j) = ("/", j)
  /\ splitroot (String "/" (String "/" j)) = ("//", j).
Proof.
  destruct j as [|a j]; [done|]. cbn [PyStr.startswith].
  rewrite andb_true_r. intros Ha. unfold splitroot.
  cbn [PyStr.take PyStr.drop]. unfold String.eqb. by rewrite Ha.
Qed.

Lemma names_filter_parts parts :
  Forall (fun x => Tree.is_name x = true) parts ->
  List.filter is_part parts = parts.
Proof.
  induction 1 as [|x parts Hx _ IH]; [done|]. simpl.
  unfold Tree.is_name in Hx. apply andb_true_iff in Hx as [-> _].
  by rewrite IH.
Qed.

(** Parsing the string of a path gives the path back. *)
Lemma Path_str p : Tree.wf_path p -> Path (str p) = p.
Proof.
  destruct p as [r parts]. intros [Hr Hall]. cbn [root tail] in *.
  destruct parts as [|x parts].
  - by destruct Hr as [->|[->| ->]].
  - pose proof (names_no_sep _ Hall) as Hns.
    pose proof (split_join (x :: parts) ltac:(done) Hns) as Hsj.
    apply Forall_cons in Hall as Hx. destruct Hx as [Hx _].
    pose proof (join_names_start x parts Hx) as Hst.
    pose proof (join_names_truthy x parts Hx) as Htr.
    destruct (splitroot_names _ Hst) as (S0 & S1 & S2).
    unfold Path, str. cbn [root tail].
    destruct Hr as [->|[->| ->]].
    + rewrite append_nil, Htr, S0. by rewrite Hsj, names_filter_parts.
    + change ("/" +:+ PyStr.join "/" (x :: parts))
        with (String "/" (PyStr.join "/" (x :: parts))).
      cbn [PyStr.truthy]. rewrite S1. by rewrite Hsj, names_filter_parts.
    + change ("//" +:+ PyStr.join "/" (x :: parts))
        with (String "/" (String "/" (PyStr.join "/" (x :: parts)))).
      cbn [PyStr.truthy]. rewrite S2. by rewrite Hsj, names_filter_parts.
Qed.

End NormalForm.

(** X12.  The directory that pip gets after [-w] is the destination in
    normal form: it is never empty, and parsing it again as a path gives the
    same path and the same string. *)
Theorem output_dir_token_normal (destination : string) :
  PyStr.truthy (str (Path destination)) = true
  /\ Path (str (Path destination)) = Path destination
  /\ str (Path (str (Path destination))) = str (Path destination).
Proof.
  pose proof (Path_str _ (Path_wf destination)) as H.
  split; [apply str_truthy|]. split; [done|]. by rewrite H.
Qed.

(** ** The command line *)

Section CliFacts.

(** The command, by the cases of its package and of the build. *)
Lemma buildpkg_unfold args p :
  Cli._buildpkg_command args p
  = match Cli.python_pip args with
    | Some package =>
        if PyStr.truthy package then
          match build_python_package_from_pip package (Cli.output_dir args)
                  (Cli.python_executable args) (Cli.pip_args args) None
                  (Cli.world p) with
          | (inl e, w') => (inl (Cli.Raised e), Cli.mkProcess w' (Cli.stdout p))
          | (inr interpreter, w') =>
              (inr 0,
               Cli.mkProcess w'
                 (Cli.stdout p +:+
                  ("Built " +:+ package +:+ " using interpreter: " +:+ interpreter)
                  +:+ Cli.newline))
          end
        else (inl (Cli.SystemExit_message Cli.requires_python_pip), p)
    | None => (inl (Cli.SystemExit_message Cli.requires_python_pip), p)
    end.
Proof.
  unfold Cli._buildpkg_command. by destruct (Cli.python_pip args) as [[|c s]|].
Qed.

Lemma buildpkg_returns_zero args p rc p' :
  Cli._buildpkg_command args p = (inr rc, p') -> rc = 0.
Proof.
  rewrite buildpkg_unfold.
  destruct (Cli.python_pip args) as [pkg|]; [|done].
  destruct (PyStr.truthy pkg); [|done].
  destruct (build_python_package_from_pip _ _ _ _ _ _) as [[e|i] w']; [done|].
  by intros [= <- _].
Qed.

(** A build starts no child, or one: pip, with the interpreter that
    resolution gave and the environment the build was given. *)
Lemma build_spawn_shape package destination python_executable extra_pip_args env w :
  let after := (build_python_package_from_pip package destination
                  python_executable extra_pip_args env w).2 in
  spawned after = spawned w
  \/ exists i t,
       _resolve_python_executable w python_executable = inr i
       /\ spawned after
          = (spawned w ++
             [Spawn (pip_cmd i package (Path destination) extra_pip_args) env t])%list.
Proof.
  cbv zeta.
  destruct (_resolve_python_executable w python_executable) as [e|i] eqn:Hr.
  { left. by rewrite build_unfold, Hr. }
  destruct (Path_mkdir (Path destination) w) as [[e|[]] w1] eqn:Hm.
  - left. rewrite build_unfold, Hr, Hm. apply Path_mkdir_frame in Hm.
    by rewrite Hm.
  - right. exists i, (fs w1). split; [done|]. by apply build_spawns.
Qed.

End CliFacts.


(** X15.  What the command line hands to pip: the command starts no child
    or one; the one it starts gets the eight fixed tokens, with the resolved
    interpreter, the package of [--python-pip] and the [--output-dir] in
    normal form, followed by the [--pip-arg] values as given and in order;
    and it gets no environment of its own, so it inherits that of the
    process. *)
Theorem buildpkg_child (args : Cli.Namespace) (p : Cli.Process) :
  let after := Cli.world (Cli._buildpkg_command args p).2 in
  spawned after = spawned (Cli.world p)
  \/ exists package i t,
       Cli.python_pip args = Some package
       /\ _resolve_python_executable (Cli.world p) (Cli.python_executable args) = inr i
       /\ spawned after
          = (spawned (Cli.world p) ++
             [Spawn ([i; "-m"; "pip"; "wheel"; package; "--no-deps"; "-w";
                      str (Path (Cli.output_dir args))]
                     ++ default [] (Cli.pip_args args))
                    None t])%list.
Proof.
  cbv zeta. rewrite buildpkg_unfold.
  destruct (Cli.python_pip args) as [pkg|] eqn:Hp; [|by left].
  destruct (PyStr.truthy pkg); [|by left].
  pose proof (build_spawn_shape pkg (Cli.output_dir args) (Cli.python_executable args)
                (Cli.pip_args args) None (Cli.world p)) as Hs.
  cbv zeta in Hs.
  destruct (build_python_package_from_pip _ _ _ _ _ _) as [[e|i] w'];
    (destruct Hs as [Hs|(i0 & t & Hr & Hs)];
     [by left|right; rewrite pip_cmd_tokens in Hs; by exists pkg, i0, t]).
Qed.

(** X16.  [main] returns only 0, never the 1 of its last line: when it
    returns, the parser gave a namespace for [buildpkg] and the command
    returned 0. *)
Theorem main_returns_only_zero
    (parse_args : option (list string) -> Cli.Process ->
                  (Cli.cli_exn + Cli.Namespace) * Cli.Process)
    (argv : option (list string)) (p p' : Cli.Process) (rc : Z) :
  Cli.main parse_args argv p = (inr rc, p') ->
  rc = 0
  /\ exists args p1,
       parse_args argv p = (inr args, p1)
       /\ Cli.command args = "buildpkg"
       /\ Cli._buildpkg_command args p1 = (inr 0, p').
Proof.
  unfold Cli.main.
  destruct (parse_args argv p) as [[e|args] p1]; [done|].
  destruct (String.eqb_spec (Cli.command args) "buildpkg") as [Hc|]; [|done].
  intros Hrun. pose proof (buildpkg_returns_zero _ _ _ _ Hrun) as ->.
  split; [done|]. by exists args, p1.
Qed.

Lemma main_returns_only_zero_witness :
  0 = 0
  /\ exists args p1,
       Scene.tiny_parser (Some ["buildpkg"; "--python-pip"; "requests"])
         (Cli.mkProcess (Sample.plain_world 0) "")
       = (inr args, p1)
       /\ Cli.command args = "buildpkg"
       /\ Cli._buildpkg_command args p1
          = (inr 0,
             (Cli.main Scene.tiny_parser (Some ["buildpkg"; "--python-pip"; "requests"])
                (Cli.mkProcess (Sample.plain_world 0) "")).2).
Proof.
  apply (main_returns_only_zero Scene.tiny_parser
           (Some ["buildpkg"; "--python-pip"; "requests"])
           (Cli.mkProcess (Sample.plain_world 0) "")).
  vm_compute; reflexivity.
Defined.

(** What the sample run prints. *)
Example main_prints_the_build :
  Cli.stdout
    (Cli.main Scene.tiny_parser (Some ["buildpkg"; "--python-pip"; "requests"])
       (Cli.mkProcess (Sample.plain_world 0) "")).2
  = "Built requests using interpreter: /opt/lpm/lpm" +:+ Cli.newline.
Proof. vm_compute; reflexivity. Qed.
